(** * Network genealogies of [@truffle/db]: the migrate-time resolution

    A shallow embedding of
    [packages/db/src/project/migrate/networkGenealogies.ts]:

    - [collectArtifactNetworks], the pure step that orders the artifact
      networks of one chain by block height and links neighbours;
    - [findMatchingCandidateOnChain], [queryNextPossiblyRelatedNetworks]
      and [findRelation], the generator functions that look for an
      already recorded relative of a network;
    - [generateNetworkGenealogiesLoad], the generator that composes them
      and loads the resulting [NetworkGenealogyInput]s;

    and, in [Module Compile], of the command of
    [packages/truffle-core/lib/commands/compile.js].

    JavaScript values that may be [undefined] are [option]s, numbers that
    hold block heights are [Z], objects used as dictionaries are [gmap]s,
    and a generator is a tree of [Yield]s that a driver answers one at a
    time. *)

From Stdlib Require Import ZArith Lia.
From stdpp Require Import base option list sorting strings pretty gmap.

Local Open Scope Z_scope.

(** ** Completions: how a JavaScript evaluation ends *)

Inductive JsError : Type :=
| TypeError (message : string)
| Rejected (reason : string).

(** [Normal a]: the evaluation produced [a]; [Abrupt e]: it threw [e]. *)
Inductive Completion (A : Type) : Type :=
| Normal (a : A)
| Abrupt (e : JsError).
Arguments Normal {A} a.
Arguments Abrupt {A} e.

#[global] Instance Completion_ret : MRet Completion := @Normal.
#[global] Instance Completion_bind : MBind Completion :=
  λ A B f c, match c with Normal a => f a | Abrupt e => Abrupt e end.

(** Reading a property of [undefined] throws a [TypeError]. *)
Definition property {A : Type} (name : string) (object : option A) : Completion A :=
  match object with
  | Some o => Normal o
  | None => Abrupt (TypeError ("Cannot read property '" +:+ name +:+ "' of undefined"))
  end.

(** Destructuring [undefined] throws as well. *)
Definition destructure {A : Type} (name : string) (object : option A) : Completion A :=
  match object with
  | Some o => Normal o
  | None => Abrupt (TypeError ("Cannot destructure property '" +:+ name +:+ "' of undefined"))
  end.

(** ** Data model *)

(** [IdObject<R>]: a reference to a resource, by its identifier. *)
Record IdObject : Type := { id : string }.

(** [DataModel.Block]. *)
Record Block : Type := { hash : string; height : Z }.

(** [DataModel.Network], as the candidate queries select it. *)
Record Network : Type := { network_id : string; historicBlock : Block }.

Definition toIdObject (resource : Network) : IdObject := {| id := network_id resource |}.

(** The [db] member of an artifact network. *)
Record Db : Type := { network : IdObject }.

(** [ArtifactNetwork extends { block?: Block; db?: { network } }]. *)
Record ArtifactNetwork : Type := { block : option Block; db : option Db }.

(** [DataModel.NetworkGenealogyInput]. *)
Record NetworkGenealogyInput : Type := { ancestor : IdObject; descendant : IdObject }.

(** [CollectArtifactNetworksResult]; its members are prefixed, the names
    [ancestor] and [descendant] being taken by the links. *)
Record CollectArtifactNetworksResult : Type := {
  collected_ancestor : IdObject;
  collected_descendant : IdObject;
  networkGenealogies : list NetworkGenealogyInput
}.

#[global] Instance IdObject_eq_dec : EqDecision IdObject.
Proof. solve_decision. Defined.
#[global] Instance Block_eq_dec : EqDecision Block.
Proof. solve_decision. Defined.
#[global] Instance NetworkGenealogyInput_eq_dec : EqDecision NetworkGenealogyInput.
Proof. solve_decision. Defined.

(** ** Arrays

    The methods of [Array.prototype] the module uses, on lists.  A
    callback that dereferences its argument can throw, so [sort] and
    [map] thread a [Completion]. *)
Module JsArray.

Definition filter {A : Type} (callback : A → bool) (array : list A) : list A :=
  List.filter callback array.

(** [insert] puts [x], which stood before every element of the sorted
    [array], in front of the first element that does not compare below
    it: equal elements keep their order. *)
Fixpoint insert {A : Type} (compare : A → A → Completion Z) (x : A) (array : list A)
  : Completion (list A) :=
  match array with
  | [] => Normal [x]
  | y :: rest =>
      c ← compare x y;
      if c <=? 0 then Normal (x :: y :: rest)
      else sorted ← insert compare x rest; Normal (y :: sorted)
  end.

(** [array.sort(compare)]: ascending in [compare], and stable (as
    ECMAScript 2019 requires). *)
Fixpoint sort {A : Type} (compare : A → A → Completion Z) (array : list A)
  : Completion (list A) :=
  match array with
  | [] => Normal []
  | x :: rest => sorted ← sort compare rest; insert compare x sorted
  end.

Fixpoint map {A B : Type} (callback : A → Completion B) (array : list A)
  : Completion (list B) :=
  match array with
  | [] => Normal []
  | x :: rest => y ← callback x; ys ← map callback rest; Normal (y :: ys)
  end.

(** [array.slice(1)]. *)
Definition slice1 {A : Type} (array : list A) : list A := drop 1 array.

(** [array.slice(-1)[[0]]]. *)
Definition slice_last {A : Type} (array : list A) : option A := last array.

Definition reduce {A B : Type} (callback : B → A → B) (initial : B) (array : list A) : B :=
  fold_left callback array initial.

End JsArray.

(** ** The Collector *)

(** The filter callback
    [({ block, db: { network } = {} } = {}) => block && network]:
    an absent element and an absent [db] default to [{}]. *)
Definition hasBlockAndNetwork (artifactNetwork : option ArtifactNetwork) : bool :=
  match artifactNetwork with
  | None => false
  | Some a =>
      match block a, db a with
      | Some _, Some _ => true
      | _, _ => false
      end
  end.

(** [a.block.height]. *)
Definition blockHeight (a : option ArtifactNetwork) : Completion Z :=
  a ← property "block" a;
  b ← property "height" (block a);
  Normal (height b).

(** The sort callback [(a, b) => a.block.height - b.block.height]. *)
Definition byBlockHeight (a b : option ArtifactNetwork) : Completion Z :=
  ha ← blockHeight a;
  hb ← blockHeight b;
  Normal (ha - hb).

(** The map callback [({ db: { network } }) => network]. *)
Definition dbNetwork (a : option ArtifactNetwork) : Completion IdObject :=
  a ← destructure "db" a;
  d ← destructure "network" (db a);
  Normal (network d).

(** [ResultAccumulator]: the current ancestor and the links so far. *)
Definition ResultAccumulator : Type := IdObject * list NetworkGenealogyInput.

(** The reducer of [collectArtifactNetworks]. *)
Definition linkToPrevious (accumulator : ResultAccumulator) (descendant : IdObject)
  : ResultAccumulator :=
  let '(ancestor, networkGenealogies) := accumulator in
  (descendant,
   networkGenealogies ++ [{| ancestor := ancestor; descendant := descendant |}]).

(** Lines 152 to 185 of the source, on the sorted [networks]: the
    all-null case, then the reduction over [networks.slice(1)].  The
    result [None] is the [undefined] of the bare [return].  [networks] is
    not empty where [slice(-1)[[0]]] is read. *)
Definition linkNetworks (networks : list IdObject) : option CollectArtifactNetworksResult :=
  match networks with
  | [] => None
  | first :: _ =>
      let initialAccumulator : ResultAccumulator := (first, []) in
      let '(_, networkGenealogies) :=
        JsArray.reduce linkToPrevious initialAccumulator (JsArray.slice1 networks) in
      Some {| collected_ancestor := first;
              collected_descendant := default first (JsArray.slice_last networks);
              networkGenealogies := networkGenealogies |}
  end.

Definition collectArtifactNetworks (artifactNetworks : list (option ArtifactNetwork))
  : Completion (option CollectArtifactNetworksResult) :=
  sorted ← JsArray.sort byBlockHeight (JsArray.filter hasBlockAndNetwork artifactNetworks);
  networks ← JsArray.map dbNetwork sorted;
  Normal (linkNetworks networks).

(** An artifact network with both members present. *)
Definition observe (n : string) (h : Z) : option ArtifactNetwork :=
  Some {| block := Some {| hash := ""; height := h |};
          db := Some {| network := {| id := n |} |} |}.

Definition link (a d : string) : NetworkGenealogyInput :=
  {| ancestor := {| id := a |}; descendant := {| id := d |} |}.

(** ** Processes: generators that yield requests

    [Process<T>] of [@truffle/db/project/process] is a generator: it
    yields a request, is resumed with the response (or has an error
    thrown into it at the [yield]), and finally returns a [T] or throws.
    The requests this module makes are the three of [Effect]; [Effect X]
    is a request whose response is an [X]. *)

Inductive Relation : Type := RelAncestor | RelDescendant.

(** The query a relation selects:
    [relation === "ancestor" ? "possibleAncestors" : "possibleDescendants"]. *)
Definition queryName (relation : Relation) : string :=
  match relation with
  | RelAncestor => "possibleAncestors"
  | RelDescendant => "possibleDescendants"
  end.

(** [DataModel.CandidateSearchResult]. *)
Record CandidateSearchResult : Type := {
  networks : list Network;
  alreadyTried : list string
}.

(** The response to a web3 request: [response.result] is the block, or
    [null] when the chain has none at that height. *)
Record Web3Response : Type := { result : option Block }.

(** Modelled from the spec: [resources.get] and [resources.load] of
    [@truffle/db/project/process] are not among the sources at hand.
    Following the external interfaces of the specification, each is one
    request to the driver: a store relation query, answered with a
    candidate batch, and a store persist, answered with the identifiers
    assigned to the inputs.  The web3 request is the object the source
    yields. *)
Inductive Effect : Type → Type :=
  (** [resources.get("networks", id, gql`fragment ... on Network
      { ${query}(alreadyTried: ${JSON.stringify(alreadyTried)}) {...} }`)],
      answered with the value of the [query] member. *)
| ResourcesGet (relation : Relation) (id : string) (alreadyTried : list string)
    : Effect CandidateSearchResult
  (** [{ type: "web3", method: "eth_getBlockByNumber", params: [height, full] }] *)
| Web3GetBlockByNumber (height : Z) (full : bool) : Effect (option Web3Response)
  (** [resources.load("networkGenealogies", inputs)] *)
| ResourcesLoad (inputs : list NetworkGenealogyInput) : Effect (list IdObject).

Inductive Process (A : Type) : Type :=
| Done (completion : Completion A)
| Yield {X : Type} (request : Effect X) (resume : Completion X → Process A)
  (** the bound on loop iterations ran out: not a behaviour of the
      program, only of its bounded unfolding *)
| OutOfFuel.
Arguments Done {A} completion.
Arguments Yield {A X} request resume.
Arguments OutOfFuel {A}.

Fixpoint Process_bind {A B : Type} (f : A → Process B) (p : Process A) : Process B :=
  match p with
  | Done (Normal a) => f a
  | Done (Abrupt e) => Done (Abrupt e)
  | Yield request resume => Yield request (λ response, Process_bind f (resume response))
  | OutOfFuel => OutOfFuel
  end.

#[global] Instance Process_ret : MRet Process := λ A a, Done (Normal a).
#[global] Instance Process_mbind : MBind Process := @Process_bind.

(** [yield request]: the response is the value of the expression, an
    error thrown into the generator is thrown by it. *)
Definition yield {X : Type} (request : Effect X) : Process X := Yield request Done.

(** [try { body } catch (error) { handler }]. *)
Fixpoint tryCatch {A : Type} (body : Process A) (handler : JsError → Process A) : Process A :=
  match body with
  | Done (Normal a) => Done (Normal a)
  | Done (Abrupt e) => handler e
  | Yield request resume => Yield request (λ response, tryCatch (resume response) handler)
  | OutOfFuel => OutOfFuel
  end.

(** ** The Relation Finder *)

(** The test of [findMatchingCandidateOnChain]:
    [response && response.result &&
     response.result.hash === candidate.historicBlock.hash]. *)
Definition matchesOnChain (response : option Web3Response) (candidate : Network) : bool :=
  match response with
  | None => false
  | Some r =>
      match result r with
      | None => false
      | Some b => bool_decide (hash b = hash (historicBlock candidate))
      end
  end.

Fixpoint findMatchingCandidateOnChain (candidates : list Network) : Process (option IdObject) :=
  match candidates with
  | [] => mret None
  | candidate :: later =>
      response ← yield (Web3GetBlockByNumber (height (historicBlock candidate)) false);
      if matchesOnChain response candidate
      then mret (Some (toIdObject candidate))
      else findMatchingCandidateOnChain later
  end.

(** [queryNextPossiblyRelatedNetworks]: [result] starts [undefined]; the
    [catch] only logs; [debug(..., result.networks)] then reads a member
    of [result]. *)
Definition queryNextPossiblyRelatedNetworks
    (relation : Relation) (network : IdObject) (alreadyTried : list string)
  : Process CandidateSearchResult :=
  result ← tryCatch
              (r ← yield (ResourcesGet relation (id network) alreadyTried); mret (Some r))
              (λ error, mret None);
  Done (property "networks" result).

(** [findRelation]: the [do ... while (candidates.length > 0)] loop,
    unfolded at most [fuel] times; [tried] is the variable [alreadyTried]
    of the source, which each iteration overwrites with the member
    [alreadyTried] of the answer. *)
Fixpoint findRelationFrom (fuel : nat) (relation : Relation) (network : IdObject)
    (tried : list string) : Process (option IdObject) :=
  match fuel with
  | O => OutOfFuel
  | S fuel =>
      found ← queryNextPossiblyRelatedNetworks relation network tried;
      let candidates := networks found in
      let tried := alreadyTried found in
      matchingCandidate ← findMatchingCandidateOnChain candidates;
      match matchingCandidate with
      | Some matching => mret (Some matching)
      | None =>
          if Nat.ltb 0 (length candidates)
          then findRelationFrom fuel relation network tried
          else mret None
      end
  end.


(** [let alreadyTried: string[] = [];] then the loop. *)
Definition findRelation (fuel : nat) (relation : Relation) (network : IdObject)
  : Process (option IdObject) :=
  findRelationFrom fuel relation network [].

(** ** The Orchestrator *)

(** An artifact: [{ networks?: { [networkId: string]: ArtifactNetwork | undefined } }]. *)
Record Artifact : Type := {
  artifact_networks : option (gmap string (option ArtifactNetwork))
}.

(** [networks[networkId]]: a missing key reads as [undefined]. *)
Definition networkFor (networkId : string) (networks : gmap string (option ArtifactNetwork))
  : option ArtifactNetwork :=
  mjoin (networks !! networkId).

(** The filter callback [({ networks }) => networks && networks[networkId]]. *)
Definition definesNetwork (networkId : string) (artifact : Artifact) : bool :=
  match artifact_networks artifact with
  | None => false
  | Some networks => bool_decide (is_Some (networkFor networkId networks))
  end.

(** The map callback [({ networks }) => networks[networkId]]. *)
Definition artifactNetwork (networkId : string) (artifact : Artifact)
  : Completion (option ArtifactNetwork) :=
  networks ← property networkId (artifact_networks artifact);
  Normal (networkFor networkId networks).

(** A pure evaluation inside a generator. *)
Definition evaluate {A : Type} (c : Completion A) : Process A := Done c.

(** [networkGenealogies.push(link)] when the relation exists. *)
Definition pushWhen (found : option IdObject) (link : IdObject → NetworkGenealogyInput)
    (networkGenealogies : list NetworkGenealogyInput) : list NetworkGenealogyInput :=
  match found with
  | Some relative => networkGenealogies ++ [link relative]
  | None => networkGenealogies
  end.

Definition generateNetworkGenealogiesLoad (fuel : nat) (networkId : string)
    (artifacts : list Artifact) : Process (list IdObject) :=
  artifactNetworks ←
    evaluate (JsArray.map (artifactNetwork networkId)
                (JsArray.filter (definesNetwork networkId) artifacts));
  collected ← evaluate (collectArtifactNetworks artifactNetworks);
  (* const { ancestor, descendant, networkGenealogies } = ... *)
  collected ← evaluate (destructure "ancestor" collected);
  let ancestor := collected_ancestor collected in
  let descendant := collected_descendant collected in
  let networkGenealogies := networkGenealogies collected in
  ancestorAncestor ← findRelation fuel RelAncestor ancestor;
  let networkGenealogies :=
    pushWhen ancestorAncestor
      (λ found, {| ancestor := found; descendant := ancestor |}) networkGenealogies in
  descendantDescendant ← findRelation fuel RelDescendant descendant;
  let networkGenealogies :=
    pushWhen descendantDescendant
      (λ found, {| ancestor := descendant; descendant := found |}) networkGenealogies in
  yield (ResourcesLoad networkGenealogies).

(** ** Drivers and runs

    A driver answers the requests of a process; it is any state machine.
    [run] resumes the process with each answer and records the exchange. *)

Record Driver : Type := {
  driver_state : Type;
  respond : ∀ X : Type, Effect X → driver_state → Completion X * driver_state
}.
Arguments respond d {X} request s.

(** One suspension: the request and what the generator was resumed with. *)
Inductive Event : Type :=
| Queried (relation : Relation) (id : string) (alreadyTried : list string)
    (response : Completion CandidateSearchResult)
| LookedUp (height : Z) (full : bool) (response : Completion (option Web3Response))
| Loaded (inputs : list NetworkGenealogyInput) (response : Completion (list IdObject)).

Definition event {X : Type} (request : Effect X) : Completion X → Event :=
  match request in Effect X return Completion X → Event with
  | ResourcesGet relation id alreadyTried => Queried relation id alreadyTried
  | Web3GetBlockByNumber height full => LookedUp height full
  | ResourcesLoad inputs => Loaded inputs
  end.

Inductive Outcome (A : Type) : Type :=
| Completed (completion : Completion A)
| Unfinished.
Arguments Completed {A} completion.
Arguments Unfinished {A}.

Record Run (A S : Type) : Type := {
  trace : list Event;
  outcome : Outcome A;
  final : S
}.
Arguments trace {A S} r.
Arguments outcome {A S} r.
Arguments final {A S} r.

Fixpoint run {A : Type} (d : Driver) (p : Process A) (s : driver_state d)
  : Run A (driver_state d) :=
  match p with
  | Done completion => {| trace := []; outcome := Completed completion; final := s |}
  | Yield request resume =>
      let '(response, s') := respond d request s in
      let r := run d (resume response) s' in
      {| trace := event request response :: trace r; outcome := outcome r; final := final r |}
  | OutOfFuel => {| trace := []; outcome := Unfinished; final := s |}
  end.

(** A driver that replays a script: the store answers its [n]-th query
    with [batches n], and the chain is a fixed map from heights to block
    hashes.  Loads are answered with one identifier per input. *)
Definition scripted (batches : nat → Completion CandidateSearchResult)
    (chain : Z → Completion (option Web3Response)) : Driver :=
  {| driver_state := nat;
     respond := λ X request,
       match request in Effect X return nat → Completion X * nat with
       | ResourcesGet _ _ _ => λ n, (batches n, S n)
       | Web3GetBlockByNumber h _ => λ n, (chain h, n)
       | ResourcesLoad inputs =>
           λ n, (Normal ((λ l, {| id := id (ancestor l) +:+ ">" +:+ id (descendant l) |})
                           <$> inputs), n)
       end |}.

(** ** Arrays by reference

    [Array.prototype.sort] sorts in place and returns its receiver, while
    [filter] and [map] build a new array.  To see which array the
    Collector's [sort] rearranges, arrays of artifact networks live in a
    store and are handled through references. *)
Module ByReference.

Definition Ref : Type := positive.
Abbreviation Store := (gmap positive (list (option ArtifactNetwork))).

(** A computation on the store that may throw. *)
Definition Mem (A : Type) : Type := Store → Completion A * Store.

#[global] Instance Mem_ret : MRet Mem := λ A a store, (Normal a, store).
#[global] Instance Mem_bind : MBind Mem := λ A B f m store,
  match m store with
  | (Normal a, store') => f a store'
  | (Abrupt e, store') => (Abrupt e, store')
  end.

Definition evaluate {A : Type} (c : Completion A) : Mem A := λ store, (c, store).

Definition contents (array : Ref) : Mem (list (option ArtifactNetwork)) :=
  λ store, (property "length" (store !! array), store).

Definition allocate (elements : list (option ArtifactNetwork)) : Mem Ref :=
  λ store, let array := fresh (dom store) in (Normal array, <[array := elements]> store).

Definition overwrite (array : Ref) (elements : list (option ArtifactNetwork)) : Mem unit :=
  λ store, (Normal (), <[array := elements]> store).

(** [array.filter(callback)]: a new array. *)
Definition filter (callback : option ArtifactNetwork → bool) (array : Ref) : Mem Ref :=
  elements ← contents array;
  allocate (JsArray.filter callback elements).

(** [array.sort(compare)]: rearranges [array] itself and returns it. *)
Definition sort (compare : option ArtifactNetwork → option ArtifactNetwork → Completion Z)
    (array : Ref) : Mem Ref :=
  elements ← contents array;
  sorted ← evaluate (JsArray.sort compare elements);
  _ ← overwrite array sorted;
  mret array.

(** [array.map(callback)]: a new array, here of network references,
    returned by value. *)
Definition map {B : Type} (callback : option ArtifactNetwork → Completion B) (array : Ref)
  : Mem (list B) :=
  elements ← contents array;
  evaluate (JsArray.map callback elements).

(** [collectArtifactNetworks] on a reference to the caller's array. *)
Definition collectArtifactNetworks (artifactNetworks : Ref)
  : Mem (option CollectArtifactNetworksResult) :=
  filtered ← filter hasBlockAndNetwork artifactNetworks;
  sorted ← sort byBlockHeight filtered;
  networks ← map dbNetwork sorted;
  mret (linkNetworks networks).

End ByReference.

(** ** Vocabulary of the statements *)

(** A valid observation: an artifact network whose block and network
    reference are both present. *)
Record Observation : Type := { seen_block : Block; seen_network : IdObject }.

Definition seen_height (o : Observation) : Z := height (seen_block o).

Definition artifactNetworkOf (o : Observation) : option ArtifactNetwork :=
  Some {| block := Some (seen_block o); db := Some {| network := seen_network o |} |}.

(** The observation an element of the input carries, if it is valid. *)
Definition observation (a : option ArtifactNetwork) : option Observation :=
  a ← a;
  b ← block a;
  d ← db a;
  Some {| seen_block := b; seen_network := network d |}.

(** The valid observations of an input, in input order. *)
Definition observations (artifactNetworks : list (option ArtifactNetwork)) : list Observation :=
  omap observation artifactNetworks.

(** An element of the input that is absent, or lacks its block or its
    network reference. *)
Definition absentOrInvalid (a : option ArtifactNetwork) : Prop :=
  match a with
  | None => True
  | Some a => block a = None ∨ db a = None
  end.

(** The link between two observations. *)
Definition linkBetween (a b : Observation) : NetworkGenealogyInput :=
  {| ancestor := seen_network a; descendant := seen_network b |}.

(** [a] is not above [b] in block height. *)
Definition notAbove (a b : Observation) : Prop := seen_height a ≤ seen_height b.

(** The artifact networks an orchestrator run hands to the Collector. *)
Definition selectedNetworks (networkId : string) (artifacts : list Artifact)
  : list (option ArtifactNetwork) :=
  omap (λ artifact,
          networks ← artifact_networks artifact;
          Some <$> networkFor networkId networks) artifacts.

(** Stable insertion by height, on observations: what [JsArray.insert]
    computes once every element is known to be valid. *)
Fixpoint insertByHeight (x : Observation) (l : list Observation) : list Observation :=
  match l with
  | [] => [x]
  | y :: rest =>
      if seen_height x - seen_height y <=? 0 then x :: y :: rest
      else y :: insertByHeight x rest
  end.

Definition sortByHeight (l : list Observation) : list Observation :=
  foldr insertByHeight [] l.

(** The chain confirms a candidate: the block it returned has exactly
    the candidate's recorded hash. *)
Definition confirms (response : option Web3Response) (candidate : Network) : Prop :=
  ∃ r b, response = Some r ∧ result r = Some b ∧ hash b = hash (historicBlock candidate).



(** The error that reading [result.networks] throws when [result] is
    [undefined]. *)
Definition networksOfUndefined : JsError :=
  TypeError "Cannot read property 'networks' of undefined".

(** A store query of a run: what it excluded and how it was answered. *)
Record Query : Type := {
  query_relation : Relation;
  query_id : string;
  query_alreadyTried : list string;
  query_response : Completion CandidateSearchResult
}.

Definition queryOf (e : Event) : option Query :=
  match e with
  | Queried relation id alreadyTried response =>
      Some {| query_relation := relation; query_id := id;
              query_alreadyTried := alreadyTried; query_response := response |}
  | _ => None
  end.

(** The store queries of a trace, in order. *)
Definition queries (events : list Event) : list Query := omap queryOf events.

Definition isLookup (e : Event) : bool :=
  match e with LookedUp _ _ _ => true | _ => false end.

Definition isLoad (e : Event) : bool :=
  match e with Loaded _ _ => true | _ => false end.

(** The queries [qs] of one search are threaded from [excluded]: the
    first one excludes [excluded], and each later one excludes what the
    answer to the one before it returned. *)
Fixpoint threaded (excluded : list string) (qs : list Query) : Prop :=
  match qs with
  | [] => True
  | q :: later =>
      query_alreadyTried q = excluded ∧
      (later = [] ∨
       ∃ found, query_response q = Normal found ∧ threaded (alreadyTried found) later)
  end.



(** ** Sample drivers *)

Definition candidate (n : string) (h : Z) (block_hash : string) : Network :=
  {| network_id := n; historicBlock := {| hash := block_hash; height := h |} |}.

(** A chain with the block ["0x3"] at height 3 and the block ["0x5'"] at
    height 5, and nothing elsewhere. *)
Definition sampleChain (h : Z) : Completion (option Web3Response) :=
  if bool_decide (h = 3) then Normal (Some {| result := Some {| hash := "0x3"; height := 3 |} |})
  else if bool_decide (h = 5)
       then Normal (Some {| result := Some {| hash := "0x5'"; height := 5 |} |})
       else Normal (Some {| result := None |}).

(** A store whose query fails. *)
Definition failingStore : Driver :=
  scripted (λ _, Abrupt (Rejected "store unavailable")) sampleChain.

(** A store that offers two unconfirmable batches, then an empty one. *)
Definition exhaustedStore : Driver :=
  scripted
    (λ n, match n with
          | O => Normal {| networks := [candidate "n9" 9 "0x9"]; alreadyTried := ["n9"] |}
          | S O => Normal {| networks := [candidate "n7" 7 "0x7"; candidate "n5" 5 "0x5"];
                             alreadyTried := ["n9"; "n7"; "n5"] |}
          | _ => Normal {| networks := []; alreadyTried := ["n9"; "n7"; "n5"] |}
          end)
    sampleChain.

(** A store whose first batch is empty. *)
Definition emptyStore : Driver :=
  scripted (λ _, Normal {| networks := []; alreadyTried := [] |}) sampleChain.

(** A store that offers, to the first query, candidates at heights 5 and
    3, and nothing to later queries. *)
Definition knownAncestorStore : Driver :=
  scripted
    (λ n, match n with
          | O => Normal {| networks := [candidate "n5" 5 "0x5"; candidate "n3" 3 "0x3"];
                           alreadyTried := ["n5"; "n3"] |}
          | _ => Normal {| networks := []; alreadyTried := [] |}
          end)
    sampleChain.

(** Three artifacts deployed on network ["1337"], and one that was not. *)
Definition sampleArtifacts : list Artifact :=
  [ {| artifact_networks := Some {[ "1337" := observe "A" 10 ]} |};
    {| artifact_networks := Some {[ "1" := observe "M" 7 ]} |};
    {| artifact_networks := Some {[ "1337" := observe "B" 20 ]} |};
    {| artifact_networks := None |};
    {| artifact_networks := Some {[ "1337" := observe "C" 15 ]} |} ].

(** The error that destructuring an undefined Collector result throws. *)
Definition destructuringUndefined : JsError :=
  TypeError "Cannot destructure property 'ancestor' of undefined".


(** The candidates the store offered in the course of a trace, in the
    order it offered them. *)
Definition offered (events : list Event) : list Network :=
  events ≫= λ e, match e with
                  | Queried _ _ _ (Normal found) => networks found
                  | _ => []
                  end.

(** The heights the trace asked the chain about, in order. *)
Definition lookedUp (events : list Event) : list Z :=
  omap (λ e, match e with LookedUp h _ _ => Some h | _ => None end) events.

Definition recordedHeight (c : Network) : Z := height (historicBlock c).

(** A store that offers two candidates, with a chain client that throws. *)
Definition unreachableChain : Driver :=
  scripted
    (λ n, Normal {| networks := [candidate "n9" 9 "0x9"; candidate "n7" 7 "0x7"];
                    alreadyTried := ["n9"; "n7"] |})
    (λ h, Abrupt (Rejected "node unreachable")).

(** ** The compile command

    [packages/truffle-core/lib/commands/compile.js]: the command either
    compiles or, with [--list], prints the compiler versions a supplier
    knows.  What the command does to the outside (the supplier's two
    promises, the logger, the callback [done], the compile workflow) is
    recorded as a trace; how each of them answers is given by a world. *)
Module Compile.

(** The values that [JSON.stringify] prints.  (No induction over them
    is needed, so no scheme is generated.) *)
#[local] Unset Elimination Schemes.
Inductive Json : Type :=
| JsonNull
| JsonBoolean (b : bool)
| JsonNumber (n : Z)
| JsonString (s : string)
| JsonArray (elements : list Json)
| JsonObject (members : list (string * Json)).
#[local] Set Elimination Schemes.

(** A replacer function of [JSON.stringify]. *)
Definition Replacer : Type := string → Json → Json.

Definition defaultLength : nat := 10.

(** [shortener(key, val)].  The source truncates the array [val] itself
    and pushes onto it; the array is not read again afterwards, and the
    value returned is the one given here. *)
Definition shortener (key : string) (val : Json) : Json :=
  match val with
  | JsonArray elements =>
      if Nat.ltb defaultLength (length elements)
      then
        let remaining := (length elements - defaultLength)%nat in
        let more :=
          ".. and " +:+ pretty remaining +:+ " more. Use `--all` to see full list." in
        JsonArray (take defaultLength elements ++ [JsonString more])
      else val
  | _ => val
  end.

(** The options the command reads: [list] is [undefined] without the
    flag and the empty string when the flag has no value. *)
Record Options : Type := { options_list : option string; options_all : bool }.

Inductive Event : Type :=
| AskedDockerTags
| AskedReleases
| Logged (text : option string)
| DoneCalled (error : option JsError)
| CompileStarted.

(** How the outside answers: what the supplier's promises settle with
    ([Abrupt] is a rejection), and whether a call of the logger or of
    [done] throws. *)
Record World : Type := {
  dockerTags : Completion (list Json);
  releases : Completion (gmap string Json);
  logThrows : option string → option JsError;
  doneThrows : option JsError → option JsError
}.

(** An action: the calls it made, and how it ended. *)
Definition Act (A : Type) : Type := list Event * Completion A.

#[global] Instance Act_ret : MRet Act := λ A a, ([], Normal a).
#[global] Instance Act_bind : MBind Act := λ A B f m,
  match m.2 with
  | Normal a => (m.1 ++ (f a).1, (f a).2)
  | Abrupt e => (m.1, Abrupt e)
  end.

Definition evaluate {A : Type} (c : Completion A) : Act A := ([], c).

Definition throwing (failure : option JsError) : Completion unit :=
  match failure with
  | Some e => Abrupt e
  | None => Normal ()
  end.

Definition log (w : World) (text : option string) : Act unit :=
  ([Logged text], throwing (logThrows w text)).

Definition done (w : World) (error : option JsError) : Act unit :=
  ([DoneCalled error], throwing (doneThrows w error)).

Definition getDockerTags (w : World) : Act (list Json) := ([AskedDockerTags], dockerTags w).

Definition getReleases (w : World) : Act (gmap string Json) := ([AskedReleases], releases w).

(** [promise.then(onFulfilled).catch(onRejected)]: [onRejected] gets the
    rejection of the promise, or what [onFulfilled] threw. *)
Definition thenCatch {A : Type} (promise : Act A) (onFulfilled : A → Act unit)
    (onRejected : JsError → Act unit) : Act unit :=
  match promise.2 with
  | Normal a =>
      match (onFulfilled a).2 with
      | Normal _ => (promise.1 ++ (onFulfilled a).1, Normal ())
      | Abrupt e =>
          (promise.1 ++ (onFulfilled a).1 ++ (onRejected e).1, (onRejected e).2)
      end
  | Abrupt e => (promise.1 ++ (onRejected e).1, (onRejected e).2)
  end.

Section Stringify.

(** [format = JSON.stringify], a builtin: [undefined] prints as
    [undefined], a [null] replacer is no replacer. *)
Variable format : option Json → option Replacer → string → option string.

Definition seeMore : Json := JsonString "See more at: hub.docker.com/r/ethereum/solc/tags/".

Definition listVersions (w : World) (options : Options) : Act unit :=
  (* options.list = (options.list.length) ? options.list : "releases"; *)
  given ← evaluate (property "length" (options_list options));
  let list := if Nat.eqb (String.length given) 0 then "releases" else given in
  if bool_decide (list = "docker")
  then
    thenCatch (getDockerTags w)
      (λ tags,
         let tags := tags ++ [seeMore] in
         _ ← log w (format (Some (JsonArray tags)) None " ");
         done w None)
      (λ error, done w (Some error))
  else
    thenCatch (getReleases w)
      (λ releases,
         let shortener := if options_all options then None else Some shortener in
         let text := format (releases !! list) shortener " " in
         _ ← log w text;
         done w None)
      (λ error, done w (Some error)).

(** [Contracts.compile(config, done)], of [truffle-workflow-compile]: it
    is handed [done] and is not followed further. *)
Definition compile (w : World) (config : Options) : Act unit := ([CompileStarted], Normal ()).

(** [run], from the detected [config] on. *)
Definition run (w : World) (config : Options) : Act unit :=
  match options_list config with
  | Some _ => listVersions w config
  | None => compile w config
  end.

End Stringify.


Definition isLogged (e : Event) : bool :=
  match e with Logged _ => true | _ => false end.

(** A world in which neither the logger nor [done] throws. *)
Definition quiet (w : World) : Prop :=
  (∀ text, logThrows w text = None) ∧ (∀ error, doneThrows w error = None).

End Compile.

(** A printer standing in for [JSON.stringify] in examples: it tells
    only whether it was given a value and a replacer. *)
Definition sampleFormat (value : option Compile.Json) (replacer : option Compile.Replacer)
    (gap : string) : option string :=
  match value with
  | None => None
  | Some _ => Some (match replacer with Some _ => "shortened" | None => "full" end)
  end.

(** A supplier that knows some releases and whose registry of docker
    tags is out of reach; the logger and [done] do not throw. *)
Definition sampleWorld : Compile.World :=
  {| Compile.dockerTags := Abrupt (Rejected "registry unavailable");
     Compile.releases :=
       Normal {[ "releases" := Compile.JsonArray [Compile.JsonString "0.5.0"];
                 "latestRelease" := Compile.JsonString "0.5.0" ]};
     Compile.logThrows := λ _, None;
     Compile.doneThrows := λ _, None |}.

(** A supplier whose docker tags arrive. *)
Definition dockerWorld : Compile.World :=
  {| Compile.dockerTags := Normal [Compile.JsonString "stable"; Compile.JsonString "0.5.0"];
     Compile.releases := Abrupt (Rejected "solc-bin unavailable");
     Compile.logThrows := λ _, None;
     Compile.doneThrows := λ _, None |}.

(** * Properties *)

(** ** The Collector *)

Section Collector.

Implicit Types (o x y : Observation) (l : list Observation).

Lemma hasBlockAndNetwork_observation (a : option ArtifactNetwork) :
  hasBlockAndNetwork a = bool_decide (is_Some (observation a)).
Proof.
  destruct a as [[[b|] [d|]]|]; simpl; try reflexivity.
  all: symmetry; apply bool_decide_eq_false; intros [? ?]; discriminate.
Qed.

Lemma observation_artifactNetworkOf o : observation (artifactNetworkOf o) = Some o.
Proof. by destruct o. Qed.

Lemma observation_Some (a : option ArtifactNetwork) o :
  observation a = Some o → a = artifactNetworkOf o.
Proof.
  destruct a as [[[b|] [[n]|]]|]; simpl; intros H; try discriminate.
  by injection H as <-.
Qed.

Lemma observations_artifactNetworkOf l : observations (artifactNetworkOf <$> l) = l.
Proof.
  unfold observations. induction l as [|o l IH]; [done|].
  cbn [fmap list_fmap omap list_omap]. rewrite observation_artifactNetworkOf.
  f_equal. apply IH.
Qed.

(** [filter] keeps exactly the valid observations, in input order. *)
Lemma filter_hasBlockAndNetwork (artifactNetworks : list (option ArtifactNetwork)) :
  JsArray.filter hasBlockAndNetwork artifactNetworks
  = artifactNetworkOf <$> observations artifactNetworks.
Proof.
  unfold JsArray.filter, observations.
  induction artifactNetworks as [|a rest IH]; [done|].
  cbn [List.filter omap list_omap]. rewrite hasBlockAndNetwork_observation.
  destruct (observation a) as [o|] eqn:Ho.
  - rewrite bool_decide_eq_true_2 by eauto.
    cbn [fmap list_fmap]. rewrite IH. f_equal. by apply observation_Some.
  - rewrite bool_decide_eq_false_2 by (intros [? ?]; discriminate). apply IH.
Qed.

Lemma byBlockHeight_valid x y :
  byBlockHeight (artifactNetworkOf x) (artifactNetworkOf y)
  = Normal (seen_height x - seen_height y).
Proof. reflexivity. Qed.

Lemma insert_valid x l :
  JsArray.insert byBlockHeight (artifactNetworkOf x) (artifactNetworkOf <$> l)
  = Normal (artifactNetworkOf <$> insertByHeight x l).
Proof.
  induction l as [|y rest IH]; [done|].
  cbn [fmap list_fmap JsArray.insert insertByHeight].
  rewrite byBlockHeight_valid. cbn [mbind Completion_bind].
  destruct (seen_height x - seen_height y <=? 0); [done|].
  change (list_fmap _ _ artifactNetworkOf rest) with (artifactNetworkOf <$> rest).
  by rewrite IH.
Qed.

(** On valid observations the comparator never throws, and [sort] is
    the stable insertion sort by height. *)
Lemma sort_valid l :
  JsArray.sort byBlockHeight (artifactNetworkOf <$> l)
  = Normal (artifactNetworkOf <$> sortByHeight l).
Proof.
  induction l as [|x rest IH]; [done|].
  cbn [fmap list_fmap JsArray.sort].
  change (list_fmap _ _ artifactNetworkOf rest) with (artifactNetworkOf <$> rest).
  rewrite IH. cbn [mbind Completion_bind]. apply insert_valid.
Qed.

Lemma map_dbNetwork_valid l :
  JsArray.map dbNetwork (artifactNetworkOf <$> l) = Normal (seen_network <$> l).
Proof.
  induction l as [|x rest IH]; [done|].
  cbn [fmap list_fmap JsArray.map].
  change (list_fmap _ _ artifactNetworkOf rest) with (artifactNetworkOf <$> rest).
  rewrite IH. reflexivity.
Qed.

Lemma insertByHeight_Permutation x l : insertByHeight x l ≡ₚ x :: l.
Proof.
  induction l as [|y rest IH]; [done|]. simpl.
  destruct (_ <=? _); [done|]. rewrite IH. apply Permutation_swap.
Qed.

Lemma sortByHeight_Permutation l : sortByHeight l ≡ₚ l.
Proof.
  induction l as [|x rest IH]; [done|]. simpl.
  by rewrite insertByHeight_Permutation, IH.
Qed.

Lemma insertByHeight_Sorted x l :
  Sorted notAbove l → Sorted notAbove (insertByHeight x l).
Proof.
  induction 1 as [|y rest Hs IH Hhd]; simpl; [by repeat constructor|].
  destruct (Z.leb_spec (seen_height x - seen_height y) 0) as [Hle|Hgt].
  - constructor; [by constructor|]. constructor. unfold notAbove. lia.
  - constructor; [done|].
    destruct Hhd as [|z rest' Hyz]; simpl.
    + constructor. unfold notAbove. lia.
    + destruct (_ <=? _); constructor; [unfold notAbove; lia|done].
Qed.

Lemma sortByHeight_Sorted l : Sorted notAbove (sortByHeight l).
Proof.
  induction l as [|x rest IH]; simpl; [constructor|by apply insertByHeight_Sorted].
Qed.

(** Stability: observations of one height keep their input order. *)
Lemma insertByHeight_stable h x l :
  filter (λ o, seen_height o = h) (insertByHeight x l)
  = filter (λ o, seen_height o = h) (x :: l).
Proof.
  induction l as [|y rest IH]; [done|]. simpl.
  destruct (Z.leb_spec (seen_height x - seen_height y) 0) as [Hle|Hgt]; [done|].
  rewrite !filter_cons in *.
  destruct (decide (seen_height y = h)), (decide (seen_height x = h));
    try lia; by rewrite IH.
Qed.

Lemma sortByHeight_stable h l :
  filter (λ o, seen_height o = h) (sortByHeight l) = filter (λ o, seen_height o = h) l.
Proof.
  induction l as [|x rest IH]; [done|]. simpl.
  rewrite insertByHeight_stable, !filter_cons. by rewrite IH.
Qed.


(** The reduction links every network to the one before it. *)
Lemma reduce_linkToPrevious (rest : list IdObject) (first : IdObject)
    (links : list NetworkGenealogyInput) :
  (JsArray.reduce linkToPrevious (first, links) rest).2
  = links ++ zip_with (λ a d, {| ancestor := a; descendant := d |}) (first :: rest) rest.
Proof.
  unfold JsArray.reduce. revert first links.
  induction rest as [|n rest IH]; intros first links.
  - simpl. by rewrite app_nil_r.
  - cbn [fold_left linkToPrevious]. rewrite IH. by rewrite <- app_assoc.
Qed.

Lemma linkNetworks_cons (first : IdObject) (rest : list IdObject) :
  linkNetworks (first :: rest)
  = Some {| collected_ancestor := first;
            collected_descendant := default first (last (first :: rest));
            networkGenealogies :=
              zip_with (λ a d, {| ancestor := a; descendant := d |}) (first :: rest) rest |}.
Proof.
  unfold linkNetworks, JsArray.slice1, JsArray.slice_last. cbn [drop].
  pose proof (reduce_linkToPrevious rest first []) as H.
  destruct (JsArray.reduce _ _ _) as [? links]. simpl in H. by subst.
Qed.

(** The Collector on any input, through the valid observations it
    carries. *)
Lemma collectArtifactNetworks_observations (artifactNetworks : list (option ArtifactNetwork)) :
  collectArtifactNetworks artifactNetworks
  = Normal (linkNetworks (seen_network <$> sortByHeight (observations artifactNetworks))).
Proof.
  unfold collectArtifactNetworks.
  rewrite filter_hasBlockAndNetwork, sort_valid. cbn [mbind Completion_bind].
  by rewrite map_dbNetwork_valid.
Qed.

Lemma linkNetworks_observations (sorted : list Observation) :
  sorted ≠ [] →
  ∃ r, linkNetworks (seen_network <$> sorted) = Some r ∧
       seen_network <$> head sorted = Some (collected_ancestor r) ∧
       seen_network <$> last sorted = Some (collected_descendant r) ∧
       networkGenealogies r = zip_with linkBetween sorted (drop 1 sorted).
Proof.
  destruct sorted as [|first rest]; [done|]. intros _.
  rewrite fmap_cons, linkNetworks_cons. eexists. split; [done|].
  cbn [collected_ancestor collected_descendant networkGenealogies head drop].
  rewrite <- fmap_cons, fmap_last, zip_with_fmap_l, zip_with_fmap_r.
  split; [done|]. split; [|done].
  rewrite last_cons. by destruct (last rest).
Qed.

Lemma absentOrInvalid_observation (a : option ArtifactNetwork) :
  absentOrInvalid a ↔ observation a = None.
Proof.
  destruct a as [[[b|] [d|]]|]; simpl; split; try done; try tauto.
  intros [?|?]; discriminate.
Qed.

Lemma observations_app (l1 l2 : list (option ArtifactNetwork)) :
  observations (l1 ++ l2) = observations l1 ++ observations l2.
Proof. apply omap_app. Qed.

Lemma observations_absentOrInvalid (artifactNetworks : list (option ArtifactNetwork)) :
  Forall absentOrInvalid artifactNetworks → observations artifactNetworks = [].
Proof.
  unfold observations. induction 1 as [|a rest Ha _ IH]; [done|].
  apply absentOrInvalid_observation in Ha. cbn [omap list_omap]. by rewrite Ha.
Qed.

(** The Collector signals [undefined] exactly when no observation is
    valid. *)
Lemma collectArtifactNetworks_none (artifactNetworks : list (option ArtifactNetwork)) :
  Forall absentOrInvalid artifactNetworks →
  collectArtifactNetworks artifactNetworks = Normal None.
Proof.
  intros H. rewrite collectArtifactNetworks_observations.
  by rewrite (observations_absentOrInvalid _ H).
Qed.

End Collector.




(** C8.  When exactly one element of the input is a valid observation,
    every other one being absent or invalid, the Collector returns that
    observation's network as both ancestor and descendant, and no link. *)
Theorem collect_single_observation
    (before after : list (option ArtifactNetwork)) (o : Observation) :
  Forall absentOrInvalid before →
  Forall absentOrInvalid after →
  collectArtifactNetworks (before ++ artifactNetworkOf o :: after)
  = Normal (Some {| collected_ancestor := seen_network o;
                    collected_descendant := seen_network o;
                    networkGenealogies := [] |}).
Proof.
  intros Hbefore Hafter.
  rewrite collectArtifactNetworks_observations.
  rewrite observations_app, (observations_absentOrInvalid _ Hbefore).
  change (artifactNetworkOf o :: after) with ([artifactNetworkOf o] ++ after).
  rewrite observations_app, (observations_absentOrInvalid _ Hafter).
  change [artifactNetworkOf o] with (artifactNetworkOf <$> [o]).
  rewrite observations_artifactNetworkOf. reflexivity.
Qed.

Lemma collect_single_observation_witness :
  collectArtifactNetworks
    [None; Some {| block := None; db := Some {| network := {| id := "X" |} |} |};
     observe "A" 10; Some {| block := Some {| hash := ""; height := 3 |}; db := None |}]
  = Normal (Some {| collected_ancestor := {| id := "A" |};
                    collected_descendant := {| id := "A" |};
                    networkGenealogies := [] |}).
Proof.
  apply (collect_single_observation
           [None; Some {| block := None; db := Some {| network := {| id := "X" |} |} |}]
           [Some {| block := Some {| hash := ""; height := 3 |}; db := None |}]
           {| seen_block := {| hash := ""; height := 10 |};
              seen_network := {| id := "A" |} |}).
  - constructor; [exact I|]. constructor; [left; reflexivity|]. constructor.
  - constructor; [right; reflexivity|]. constructor.
Defined.

(** ** Runs of processes *)

Section Runs.

Context (d : Driver).
Implicit Types (s : driver_state d).

Lemma run_bind {A B : Type} (p : Process A) (f : A → Process B) s :
  run d (p ≫= f) s
  = match outcome (run d p s) with
    | Completed (Normal a) =>
        let r' := run d (f a) (final (run d p s)) in
        {| trace := trace (run d p s) ++ trace r';
           outcome := outcome r'; final := final r' |}
    | Completed (Abrupt e) =>
        {| trace := trace (run d p s); outcome := Completed (Abrupt e);
           final := final (run d p s) |}
    | Unfinished =>
        {| trace := trace (run d p s); outcome := Unfinished;
           final := final (run d p s) |}
    end.
Proof.
  revert s. induction p as [[a|e]|X request resume IH|]; intros s; try reflexivity.
  - cbn [mbind Process_mbind Process_bind run trace outcome final app].
    by destruct (run d (f a) s).
  - change (Yield request resume ≫= f)
      with (Yield request (λ response, resume response ≫= f)).
    cbn [run]. destruct (respond d request s) as [response s'].
    rewrite IH. cbn [outcome final trace].
    by destruct (outcome (run d (resume response) s')) as [[a|e]|].
Qed.

Lemma run_yield {X : Type} (request : Effect X) s :
  run d (yield request) s
  = {| trace := [event request (respond d request s).1];
       outcome := Completed (respond d request s).1;
       final := (respond d request s).2 |}.
Proof. unfold yield. cbn [run]. by destruct (respond d request s). Qed.

(** One step of [findMatchingCandidateOnChain]. *)
Lemma run_findMatchingCandidateOnChain_cons (candidate : Network) (later : list Network) s :
  run d (findMatchingCandidateOnChain (candidate :: later)) s
  = let h := height (historicBlock candidate) in
    let answer := respond d (Web3GetBlockByNumber h false) s in
    match answer.1 with
    | Normal w =>
        if matchesOnChain w candidate
        then {| trace := [LookedUp h false (Normal w)];
                outcome := Completed (Normal (Some (toIdObject candidate)));
                final := answer.2 |}
        else let r := run d (findMatchingCandidateOnChain later) answer.2 in
             {| trace := LookedUp h false (Normal w) :: trace r;
                outcome := outcome r; final := final r |}
    | Abrupt e =>
        {| trace := [LookedUp h false (Abrupt e)];
           outcome := Completed (Abrupt e); final := answer.2 |}
    end.
Proof.
  cbn [findMatchingCandidateOnChain]. rewrite run_bind, run_yield.
  cbn [outcome trace final event].
  destruct (respond d _ s) as [[w|e] s']; cbn [fst snd]; [|done].
  destruct (matchesOnChain w candidate); [done|].
  by destruct (run d (findMatchingCandidateOnChain later) s').
Qed.

Lemma matchesOnChain_confirms (w : option Web3Response) (candidate : Network) :
  matchesOnChain w candidate = true ↔ confirms w candidate.
Proof.
  unfold matchesOnChain, confirms. split.
  - destruct w as [[[b|]]|]; simpl; try discriminate.
    intros H%bool_decide_eq_true. eauto.
  - intros (r & b & -> & Hr & Hb). rewrite Hr. by apply bool_decide_eq_true.
Qed.

End Runs.


(** ** Runs of the Relation Finder *)

Section Finder.

Context (d : Driver).
Implicit Types (s : driver_state d).

Lemma run_queryNextPossiblyRelatedNetworks
    (relation : Relation) (network : IdObject) (excluded : list string) s :
  run d (queryNextPossiblyRelatedNetworks relation network excluded) s
  = let answer := respond d (ResourcesGet relation (id network) excluded) s in
    {| trace := [Queried relation (id network) excluded answer.1];
       outcome := Completed match answer.1 with
                            | Normal found => Normal found
                            | Abrupt _ => Abrupt networksOfUndefined
                            end;
       final := answer.2 |}.
Proof.
  unfold queryNextPossiblyRelatedNetworks, yield.
  cbn [mbind Process_mbind Process_bind tryCatch run].
  destruct (respond d _ s) as [[found|e] s']; reflexivity.
Qed.

(** One iteration of the loop of [findRelation]. *)
Lemma run_findRelationFrom_S (fuel : nat) (relation : Relation) (network : IdObject)
    (excluded : list string) s :
  run d (findRelationFrom (S fuel) relation network excluded) s
  = let answer := respond d (ResourcesGet relation (id network) excluded) s in
    let query := Queried relation (id network) excluded answer.1 in
    match answer.1 with
    | Abrupt _ =>
        {| trace := [query]; outcome := Completed (Abrupt networksOfUndefined);
           final := answer.2 |}
    | Normal found =>
        let check := run d (findMatchingCandidateOnChain (networks found)) answer.2 in
        match outcome check with
        | Completed (Normal None) =>
            if Nat.ltb 0 (length (networks found))
            then let next := run d (findRelationFrom fuel relation network
                                      (alreadyTried found)) (final check) in
                 {| trace := query :: trace check ++ trace next;
                    outcome := outcome next; final := final next |}
            else {| trace := query :: trace check;
                    outcome := Completed (Normal None); final := final check |}
        | other => {| trace := query :: trace check; outcome := other;
                      final := final check |}
        end
    end.
Proof.
  cbn [findRelationFrom]. rewrite run_bind, run_queryNextPossiblyRelatedNetworks.
  cbn [outcome trace final]. cbn zeta.
  destruct (respond d _ s) as [[found|e] s']; cbn [fst snd]; [|done].
  rewrite run_bind.
  destruct (run d (findMatchingCandidateOnChain (networks found)) s')
    as [events [[[matching|]|e]|] s'']; cbn [outcome trace final]; try done.
  - cbn [run trace outcome final]. by rewrite app_nil_r.
  - destruct (Nat.ltb 0 (length (networks found))).
    + by rewrite app_comm_cons.
    + cbn [run trace outcome final]. by rewrite app_nil_r.
Qed.

Lemma findMatchingCandidateOnChain_lookups (candidates : list Network) s :
  Forall (λ e, isLookup e = true)
    (trace (run d (findMatchingCandidateOnChain candidates) s)).
Proof.
  revert s. induction candidates as [|c later IH]; intros s; [constructor|].
  rewrite run_findMatchingCandidateOnChain_cons. cbn zeta.
  destruct (respond d _ s) as [[w|e] s']; cbn [fst snd].
  - destruct (matchesOnChain w c); cbn [trace]; repeat constructor. apply IH.
  - repeat constructor.
Qed.


Lemma queries_lookups (events : list Event) :
  Forall (λ e, isLookup e = true) events → queries events = [].
Proof.
  unfold queries. induction 1 as [|e rest He _ IH]; [done|].
  by destruct e.
Qed.

Lemma queries_app (events1 events2 : list Event) :
  queries (events1 ++ events2) = queries events1 ++ queries events2.
Proof. apply omap_app. Qed.

(** The queries of a search: the first, then those of the next
    iteration if there is one. *)
Lemma findRelationFrom_threaded (fuel : nat) (relation : Relation) (network : IdObject)
    (excluded : list string) s :
  let qs := queries (trace (run d (findRelationFrom fuel relation network excluded) s)) in
  threaded excluded qs ∧
  Forall (λ q, query_relation q = relation ∧ query_id q = id network) qs.
Proof.
  revert excluded s. induction fuel as [|fuel IH]; intros excluded s; [by split|].
  rewrite run_findRelationFrom_S. cbn zeta.
  destruct (respond d _ s) as [[found|e] s']; cbn [fst snd].
  2: { cbn. split; [split; [done|by left]|by repeat constructor]. }
  pose proof (queries_lookups _ (findMatchingCandidateOnChain_lookups (networks found) s'))
    as Hnone.
  destruct (outcome (run d (findMatchingCandidateOnChain (networks found)) s'))
    as [[[matching|]|e]|]; cbn [trace].
  2: destruct (Nat.ltb 0 (length (networks found))); cbn [trace].
  2: { destruct (IH (alreadyTried found)
                   (final (run d (findMatchingCandidateOnChain (networks found)) s')))
         as [Hthreaded Hall].
       change (Queried ?r ?i ?x ?a :: ?t ++ ?u) with ([Queried r i x a] ++ t ++ u).
       rewrite !queries_app, Hnone. cbn [queries omap list_omap queryOf app].
       split; [|by constructor].
       cbn [threaded query_alreadyTried query_response]. split; [done|].
       right. by exists found. }
  all: change (Queried ?r ?i ?x ?a :: ?t) with ([Queried r i x a] ++ t).
  all: rewrite queries_app, Hnone; cbn.
  all: split; [split; [done|by left]|by repeat constructor].
Qed.

Lemma threaded_next (excluded : list string) (qs : list Query) i q q' :
  threaded excluded qs → qs !! i = Some q → qs !! S i = Some q' →
  ∃ found, query_response q = Normal found ∧ query_alreadyTried q' = alreadyTried found.
Proof.
  revert excluded i. induction qs as [|q0 later IH]; intros excluded i Hthreaded; [done|].
  destruct Hthreaded as [_ [->|(found & Hfound & Hlater)]]; [by destruct i|].
  destruct i as [|i]; cbn.
  - intros [= ->] Hq'. exists found. split; [done|].
    destruct later as [|q1 later]; [done|]. injection Hq' as ->.
    by destruct Hlater as [-> _].
  - by apply IH with (alreadyTried found).
Qed.

Lemma threaded_head (excluded : list string) (qs : list Query) q :
  threaded excluded qs → head qs = Some q → query_alreadyTried q = excluded.
Proof. destruct qs as [|q0 later]; [done|]. by intros [<- _] [= ->]. Qed.

End Finder.

(** C4.  When the driver answers a store query by throwing [e] into the
    generator, [queryNextPossiblyRelatedNetworks] swallows [e] and then
    throws the [TypeError] of reading [networks] from an undefined
    [result]; [findRelation] has no handler, so the search ends with that
    [TypeError] after the one query, whatever [e] was. *)
Theorem store_query_failure_dereferences_undefined (d : Driver) (s s' : driver_state d)
    (relation : Relation) (network : IdObject) (excluded : list string) (e : JsError)
    (fuel : nat) :
  respond d (ResourcesGet relation (id network) excluded) s = (Abrupt e, s') →
  run d (queryNextPossiblyRelatedNetworks relation network excluded) s
  = {| trace := [Queried relation (id network) excluded (Abrupt e)];
       outcome := Completed (Abrupt networksOfUndefined); final := s' |} ∧
  run d (findRelationFrom (S fuel) relation network excluded) s
  = {| trace := [Queried relation (id network) excluded (Abrupt e)];
       outcome := Completed (Abrupt networksOfUndefined); final := s' |}.
Proof.
  intros Hanswer. split.
  - rewrite run_queryNextPossiblyRelatedNetworks. cbn zeta. by rewrite Hanswer.
  - rewrite run_findRelationFrom_S. cbn zeta. by rewrite Hanswer.
Qed.

Lemma store_query_failure_dereferences_undefined_witness :
  run failingStore (findRelation 1 RelAncestor {| id := "net" |}) 0%nat
  = {| trace := [Queried RelAncestor "net" [] (Abrupt (Rejected "store unavailable"))];
       outcome := Completed (Abrupt networksOfUndefined); final := 1%nat |}.
Proof.
  apply (store_query_failure_dereferences_undefined failingStore 0%nat 1%nat
           RelAncestor {| id := "net" |} [] (Rejected "store unavailable") 0).
  reflexivity.
Defined.

(** C5.  In a search, a store query answered with an empty batch is the
    last suspension of the search, which then returns [undefined] (no
    relation) normally; and when the first answer is empty the whole run
    is that one query, with no chain lookup. *)
Theorem empty_batch_ends_search (d : Driver) (s : driver_state d) (fuel : nat)
    (relation : Relation) (network : IdObject) (excluded : list string) :
  let r := run d (findRelationFrom fuel relation network excluded) s in
  (∀ i relation' id' excluded' found,
     trace r !! i = Some (Queried relation' id' excluded' (Normal found)) →
     networks found = [] →
     outcome r = Completed (Normal None) ∧ length (trace r) = S i) ∧
  (∀ found s',
     respond d (ResourcesGet relation (id network) []) s = (Normal found, s') →
     networks found = [] →
     run d (findRelation (S fuel) relation network) s
     = {| trace := [Queried relation (id network) [] (Normal found)];
          outcome := Completed (Normal None); final := s' |}).
Proof.
  split.
  - revert excluded s. induction fuel as [|fuel IH]; intros excluded s; [done|].
    intros i relation' id' excluded' found Hi Hempty. revert Hi.
    rewrite run_findRelationFrom_S. cbn zeta.
    destruct (respond d _ s) as [[found0|e] s0]; cbn [fst snd].
    2: { destruct i as [|[|i]]; cbn; [discriminate|done..]. }
    pose proof (findMatchingCandidateOnChain_lookups d (networks found0) s0) as Hlookups.
    assert (∀ k, trace (run d (findMatchingCandidateOnChain (networks found0)) s0) !! k
                 ≠ Some (Queried relation' id' excluded' (Normal found))) as Hnot.
    { intros k Hk. eapply Forall_lookup_1 in Hlookups; [|exact Hk]. done. }
    destruct i as [|i].
    + (* the query of this iteration *)
      intros Hi. assert (found0 = found) as ->.
      { destruct (outcome (run d (findMatchingCandidateOnChain (networks found0)) s0))
          as [[[?|]|?]|];
          [|destruct (Nat.ltb 0 (length (networks found0)))| |];
          cbn in Hi; congruence. }
      clear Hi. rewrite Hempty. cbn. done.
    + (* a later event *)
      destruct (outcome (run d (findMatchingCandidateOnChain (networks found0)) s0))
        as [[[matching|]|e]|]; cbn [trace outcome lookup list_lookup];
        try (intros Hi; by apply Hnot in Hi).
      destruct (Nat.ltb 0 (length (networks found0)));
        cbn [trace outcome lookup list_lookup]; [|intros Hi; by apply Hnot in Hi].
      intros Hi. apply lookup_app_Some in Hi as [Hi|[Hlen Hi]]; [by apply Hnot in Hi|].
      destruct (IH _ _ _ _ _ _ _ Hi Hempty) as [Houtcome Hlength].
      split; [done|]. cbn [length]. rewrite length_app, Hlength. lia.
  - intros found s' Hanswer Hempty. unfold findRelation.
    rewrite run_findRelationFrom_S. cbn zeta. rewrite Hanswer. cbn [fst snd].
    by rewrite Hempty.
Qed.

Lemma empty_batch_ends_search_witness :
  (let r := run exhaustedStore (findRelation 5 RelAncestor {| id := "net" |}) 0%nat in
   outcome r = Completed (Normal None) ∧ length (trace r) = 6%nat) ∧
  run emptyStore (findRelation 1 RelDescendant {| id := "net" |}) 0%nat
  = {| trace := [Queried RelDescendant "net" []
                   (Normal {| networks := []; alreadyTried := [] |})];
       outcome := Completed (Normal None); final := 1%nat |}.
Proof.
  split.
  - apply (proj1 (empty_batch_ends_search exhaustedStore 0%nat 5 RelAncestor
                    {| id := "net" |} [])
             5%nat RelAncestor "net" ["n9"; "n7"; "n5"]
             {| networks := []; alreadyTried := ["n9"; "n7"; "n5"] |});
      reflexivity.
  - apply (proj2 (empty_batch_ends_search emptyStore 0%nat 0 RelDescendant
                    {| id := "net" |} []));
      reflexivity.
Defined.

(** C6.  The queries of one search all ask for the same relation of the
    same network.  The first excludes nothing; each later one excludes
    exactly the [alreadyTried] that the answer to the query before it
    returned.  Hence, if every answered query got back a list containing
    what it had excluded, the excluded lists only grow along the search. *)
Theorem alreadyTried_threaded (d : Driver) (s : driver_state d) (fuel : nat)
    (relation : Relation) (network : IdObject) :
  let qs := queries (trace (run d (findRelation fuel relation network) s)) in
  (∀ q, q ∈ qs → query_relation q = relation ∧ query_id q = id network) ∧
  (∀ q, head qs = Some q → query_alreadyTried q = []) ∧
  (∀ i q q', qs !! i = Some q → qs !! S i = Some q' →
     ∃ found, query_response q = Normal found ∧
              query_alreadyTried q' = alreadyTried found) ∧
  ((∀ q found, q ∈ qs → query_response q = Normal found →
      query_alreadyTried q ⊆ alreadyTried found) →
   ∀ i j qi qj, (i ≤ j)%nat → qs !! i = Some qi → qs !! j = Some qj →
     query_alreadyTried qi ⊆ query_alreadyTried qj).
Proof.
  intros qs.
  destruct (findRelationFrom_threaded d fuel relation network [] s) as [Hthreaded Hall].
  fold (findRelation fuel relation network) in Hthreaded, Hall. fold qs in Hthreaded, Hall.
  assert (∀ i q q', qs !! i = Some q → qs !! S i = Some q' →
            ∃ found, query_response q = Normal found ∧
                     query_alreadyTried q' = alreadyTried found) as Hnext.
  { intros i q q'. by apply threaded_next with []. }
  split_and!.
  - intros q Hq. by apply (proj1 (Forall_forall _ _) Hall).
  - intros q. by apply threaded_head.
  - exact Hnext.
  - intros Hgrows i j. induction j as [|j IH]; intros qi qj Hle Hi Hj.
    + assert (i = 0)%nat as -> by lia. by simplify_eq.
    + destruct (decide (i = S j)) as [->|Hne]; [by simplify_eq|].
      destruct (lookup_lt_is_Some_2 qs j) as [q Hq].
      { apply lookup_lt_Some in Hj. lia. }
      destruct (Hnext j q qj Hq Hj) as (found & Hfound & ->).
      trans (query_alreadyTried q).
      * apply IH; [lia|done..].
      * apply Hgrows; [|done]. by eapply list_elem_of_lookup_2.
Qed.

Lemma alreadyTried_threaded_witness :
  let qs := queries (trace (run exhaustedStore
                              (findRelation 5 RelAncestor {| id := "net" |}) 0%nat)) in
  ∃ first third,
    qs !! 0%nat = Some first ∧ qs !! 2%nat = Some third ∧
    query_alreadyTried first = [] ∧
    query_alreadyTried third = ["n9"; "n7"; "n5"] ∧
    query_alreadyTried first ⊆ query_alreadyTried third.
Proof.
  intros qs.
  assert (∃ first, qs !! 0%nat = Some first ∧ query_alreadyTried first = [])
    as (first & Hfirst & Hnone) by (eexists; split; reflexivity).
  assert (∃ third, qs !! 2%nat = Some third ∧ query_alreadyTried third = ["n9"; "n7"; "n5"])
    as (third & Hthird & Hall) by (eexists; split; reflexivity).
  exists first, third. split_and!; [done..|].
  refine (proj2 (proj2 (proj2 (alreadyTried_threaded exhaustedStore 0%nat 5 RelAncestor
                                 {| id := "net" |}))) _ 0%nat 2%nat first third _ Hfirst Hthird);
    [|lia].
  intros q found Hq. vm_compute in Hq.
  apply list_elem_of_In in Hq. cbn [In] in Hq.
  destruct Hq as [<-|[<-|[<-|[]]]]; cbn; intros Hfound; simplify_eq;
    intros x Hx; apply list_elem_of_In; apply list_elem_of_In in Hx;
    cbn [In alreadyTried] in *; tauto.
Defined.

(** ** Runs of the Orchestrator *)

Section Orchestrator.

Context (d : Driver).
Implicit Types (s : driver_state d).

(** The orchestrator's [filter] and [map] never throw: they select, in
    order, the entries the artifacts have for [networkId]. *)
Lemma artifactNetworks_selected (networkId : string) (artifacts : list Artifact) :
  JsArray.map (artifactNetwork networkId)
    (JsArray.filter (definesNetwork networkId) artifacts)
  = Normal (selectedNetworks networkId artifacts).
Proof.
  unfold JsArray.filter, selectedNetworks.
  induction artifacts as [|[[entries|]] rest IH]; [done| |exact IH].
  cbn [List.filter definesNetwork artifact_networks omap list_omap mbind option_bind].
  destruct (networkFor networkId entries) as [a|] eqn:Ha.
  - rewrite bool_decide_eq_true_2 by eauto.
    cbn [JsArray.map artifactNetwork artifact_networks property mbind Completion_bind].
    rewrite IH, Ha. reflexivity.
  - rewrite bool_decide_eq_false_2 by (intros [? ?]; discriminate). exact IH.
Qed.

Lemma findRelationFrom_no_load (fuel : nat) (relation : Relation) (network : IdObject)
    (excluded : list string) s :
  Forall (λ e, isLoad e = false)
    (trace (run d (findRelationFrom fuel relation network excluded) s)).
Proof.
  revert excluded s. induction fuel as [|fuel IH]; intros excluded s; [constructor|].
  rewrite run_findRelationFrom_S. cbn zeta.
  destruct (respond d _ s) as [[found|e] s']; cbn [fst snd]; [|by repeat constructor].
  assert (Forall (λ e, isLoad e = false)
            (trace (run d (findMatchingCandidateOnChain (networks found)) s')))
    as Hcheck.
  { eapply Forall_impl; [apply findMatchingCandidateOnChain_lookups|].
    by intros []. }
  destruct (outcome (run d (findMatchingCandidateOnChain (networks found)) s'))
    as [[[matching|]|e]|]; cbn [trace]; try by constructor.
  destruct (Nat.ltb 0 (length (networks found))); cbn [trace]; [|by constructor].
  constructor; [done|]. apply Forall_app. split; [done|apply IH].
Qed.

Lemma filter_isLoad_none (events : list Event) :
  Forall (λ e, isLoad e = false) events → List.filter isLoad events = [].
Proof. induction 1 as [|e rest He _ IH]; [done|]. simpl. by rewrite He. Qed.

End Orchestrator.



(** C2, on the code.  When no selected artifact network is a valid
    observation the Collector returns [undefined], and the orchestrator,
    which destructures that result without a test, throws a [TypeError]
    before it yields anything: no query, no lookup and no load are
    issued, and the run does not return normally. *)
Theorem orchestrator_without_observations_throws (d : Driver) (s : driver_state d)
    (fuel : nat) (networkId : string) (artifacts : list Artifact) :
  Forall absentOrInvalid (selectedNetworks networkId artifacts) →
  collectArtifactNetworks (selectedNetworks networkId artifacts) = Normal None ∧
  run d (generateNetworkGenealogiesLoad fuel networkId artifacts) s
  = {| trace := []; outcome := Completed (Abrupt destructuringUndefined); final := s |}.
Proof.
  intros Hnone. pose proof (collectArtifactNetworks_none _ Hnone) as Hcollected.
  split; [done|].
  unfold generateNetworkGenealogiesLoad. rewrite artifactNetworks_selected.
  cbn [evaluate mbind Process_mbind Process_bind]. rewrite Hcollected.
  reflexivity.
Qed.

Lemma orchestrator_without_observations_throws_witness :
  run emptyStore (generateNetworkGenealogiesLoad 1 "1337" []) 0%nat
  = {| trace := []; outcome := Completed (Abrupt destructuringUndefined); final := 0%nat |}.
Proof.
  apply (orchestrator_without_observations_throws emptyStore 0%nat 1 "1337" []).
  constructor.
Defined.

(** C9.  Called on a reference to the caller's array, the Collector
    returns what it returns on the array's elements, and leaves the array
    with exactly the elements it had, as it leaves every other array of
    the store: the array that [sort] rearranges is the new one [filter]
    made. *)
Theorem collector_leaves_input_untouched
    (store : gmap positive (list (option ArtifactNetwork)))
    (artifactNetworks : ByReference.Ref) (elements : list (option ArtifactNetwork)) :
  store !! artifactNetworks = Some elements →
  let after := ByReference.collectArtifactNetworks artifactNetworks store in
  after.1 = collectArtifactNetworks elements ∧
  after.2 !! artifactNetworks = Some elements ∧
  (∀ array, is_Some (store !! array) → after.2 !! array = store !! array).
Proof.
  intros Hinput.
  unfold ByReference.collectArtifactNetworks, ByReference.filter, ByReference.sort,
    ByReference.map, ByReference.contents, ByReference.allocate, ByReference.overwrite,
    ByReference.evaluate.
  unfold mbind, mret, ByReference.Mem_bind, ByReference.Mem_ret. cbn beta.
  rewrite Hinput. cbn [property].
  set (filtered := fresh (dom store)).
  assert (store !! filtered = None) as Hfresh.
  { apply not_elem_of_dom. apply is_fresh. }
  clearbody filtered.
  rewrite lookup_insert_eq. cbn [property].
  rewrite filter_hasBlockAndNetwork, sort_valid.
  rewrite lookup_insert_eq. cbn [property].
  rewrite map_dbNetwork_valid. cbn zeta. cbn [fst snd].
  assert (∀ array, is_Some (store !! array) → filtered ≠ array) as Hother.
  { intros array [other Hother] <-. congruence. }
  split_and!.
  - by rewrite collectArtifactNetworks_observations.
  - rewrite !lookup_insert_ne; [done|by apply Hother..].
  - intros array Harray. rewrite !lookup_insert_ne; [done|by apply Hother..].
Qed.

Lemma collector_leaves_input_untouched_witness :
  let input := [observe "B" 20; None; observe "A" 10] in
  let store : gmap positive (list (option ArtifactNetwork)) := {[ 1%positive := input ]} in
  (ByReference.collectArtifactNetworks 1%positive store).2 !! 1%positive = Some input.
Proof.
  intros input store.
  assert (store !! 1%positive = Some input) as Hinput by reflexivity.
  exact (proj1 (proj2 (collector_leaves_input_untouched store 1%positive input Hinput))).
Defined.

Example sort_rearranges_its_receiver :
  let store : gmap positive (list (option ArtifactNetwork)) :=
    {[ 1%positive := [observe "B" 20; observe "A" 10] ]} in
  (ByReference.sort byBlockHeight 1%positive store).2 !! 1%positive
  = Some [observe "A" 10; observe "B" 20].
Proof. vm_compute. reflexivity. Qed.

(** ** Termination of the search *)

Section Termination.

Context (d : Driver) (relation : Relation) (network : IdObject).
Implicit Types (s : driver_state d) (st : list string * driver_state d).







Lemma findMatchingCandidateOnChain_found (candidates : list Network) s (x : IdObject) :
  let check := run d (findMatchingCandidateOnChain candidates) s in
  outcome check = Completed (Normal (Some x)) →
  ∃ c w, c ∈ candidates ∧
         LookedUp (height (historicBlock c)) false (Normal w) ∈ trace check ∧
         confirms w c ∧ x = toIdObject c.
Proof.
  revert s. induction candidates as [|c later IH]; intros s; [done|].
  cbn zeta. rewrite run_findMatchingCandidateOnChain_cons. cbn zeta.
  destruct (respond d _ s) as [[w|e] s']; cbn [fst snd]; [|done].
  destruct (matchesOnChain w c) eqn:Hmatch; cbn [outcome trace].
  - intros [= <-]. exists c, w. split_and!; [left|left| |done].
    by apply matchesOnChain_confirms.
  - intros (c' & w' & Hc' & Hw' & Hconfirms & ->)%IH.
    exists c', w'. split_and!; [by right|by right|done|done].
Qed.




End Termination.



(** ** The scenarios of the specification, evaluated *)

Example collect_A10_B20_C15 :
  collectArtifactNetworks [observe "A" 10; None; observe "B" 20; observe "C" 15]
  = Normal (Some {| collected_ancestor := {| id := "A" |};
                    collected_descendant := {| id := "B" |};
                    networkGenealogies := [link "A" "C"; link "C" "B"] |}).
Proof. reflexivity. Qed.

Example collect_repeated_network :
  collectArtifactNetworks [observe "N" 10; observe "N" 10; observe "M" 20]
  = Normal (Some {| collected_ancestor := {| id := "N" |};
                    collected_descendant := {| id := "M" |};
                    networkGenealogies := [link "N" "N"; link "N" "M"] |}).
Proof. reflexivity. Qed.

Example collect_nothing : collectArtifactNetworks [None; None] = Normal None.
Proof. reflexivity. Qed.

(** Candidates at heights 5 and 3, of which the chain confirms the
    second: both are looked up, in that order. *)
Example second_candidate_confirmed :
  run knownAncestorStore (findRelation 1 RelAncestor {| id := "A" |}) 0%nat
  = {| trace :=
         [ Queried RelAncestor "A" []
             (Normal {| networks := [candidate "n5" 5 "0x5"; candidate "n3" 3 "0x3"];
                        alreadyTried := ["n5"; "n3"] |});
           LookedUp 5 false
             (Normal (Some {| result := Some {| hash := "0x5'"; height := 5 |} |}));
           LookedUp 3 false
             (Normal (Some {| result := Some {| hash := "0x3"; height := 3 |} |})) ];
       outcome := Completed (Normal (Some {| id := "n3" |}));
       final := 1%nat |}.
Proof. vm_compute. reflexivity. Qed.

(** Two batches without a match, then an empty one: three queries, each
    excluding what the one before returned, and no relation. *)
Example exhausted_search :
  let r := run exhaustedStore (findRelation 5 RelAncestor {| id := "A" |}) 0%nat in
  outcome r = Completed (Normal None) ∧
  query_alreadyTried <$> queries (trace r) = [[]; ["n9"]; ["n9"; "n7"; "n5"]] ∧
  List.filter isLookup (trace r)
  = [ LookedUp 9 false (Normal (Some {| result := None |}));
      LookedUp 7 false (Normal (Some {| result := None |}));
      LookedUp 5 false
        (Normal (Some {| result := Some {| hash := "0x5'"; height := 5 |} |})) ].
Proof. vm_compute. repeat split. Qed.

(** The orchestrator on artifacts without an entry for the network. *)
Example orchestrator_on_no_networks :
  generateNetworkGenealogiesLoad 1 "5777" sampleArtifacts
  = Done (Abrupt destructuringUndefined).
Proof. vm_compute. reflexivity. Qed.

(** * Further properties *)

(** ** The Collector: totality, endpoints, path, input order *)

Section CollectorFurther.

Implicit Types (o x y : Observation) (l : list Observation).

Lemma observations_nil_absentOrInvalid (artifactNetworks : list (option ArtifactNetwork)) :
  observations artifactNetworks = [] → Forall absentOrInvalid artifactNetworks.
Proof.
  unfold observations. induction artifactNetworks as [|a rest IH]; [constructor|].
  cbn [omap list_omap]. destruct (observation a) as [o|] eqn:Ho; [discriminate|].
  intros Hrest. constructor; [by apply absentOrInvalid_observation|by apply IH].
Qed.

Lemma sortByHeight_nil l : sortByHeight l = [] ↔ l = [].
Proof.
  split; [|by intros ->]. intros Hnil.
  pose proof (sortByHeight_Permutation l) as Hperm. rewrite Hnil in Hperm.
  by apply Permutation_nil in Hperm.
Qed.

Lemma linkNetworks_none (networks : list IdObject) :
  linkNetworks networks = None ↔ networks = [].
Proof.
  destruct networks as [|first rest]; [done|].
  rewrite linkNetworks_cons. split; discriminate.
Qed.

#[global] Instance notAbove_transitive : Transitive notAbove.
Proof. intros a b c. unfold notAbove. lia. Qed.

Lemma NoDup_fmap_elem_of {A B : Type} (f : A → B) (xs : list A) (a b : A) :
  NoDup (f <$> xs) → a ∈ xs → b ∈ xs → f a = f b → a = b.
Proof.
  intros Hnodup [i Hi]%list_elem_of_lookup [j Hj]%list_elem_of_lookup Heq.
  assert (i = j) as ->; [|congruence].
  apply (NoDup_lookup _ _ _ (f a) Hnodup); rewrite list_lookup_fmap.
  - by rewrite Hi.
  - by rewrite Hj, Heq.
Qed.

(** With pairwise distinct heights the sorted sequence does not depend
    on the order of the input. *)
Lemma sortByHeight_Permutation_eq l1 l2 :
  l1 ≡ₚ l2 → NoDup (seen_height <$> l1) → sortByHeight l1 = sortByHeight l2.
Proof.
  intros Hperm Hnodup.
  apply (Sorted_unique_strong notAbove); try apply sortByHeight_Sorted.
  - intros x1 x2 Hx1 Hx2 H12 H21.
    rewrite sortByHeight_Permutation in Hx1, Hx2. rewrite <- Hperm in Hx2.
    apply (NoDup_fmap_elem_of seen_height l1); [done..|].
    unfold notAbove in *. lia.
  - by rewrite !sortByHeight_Permutation.
Qed.

(** The links of a zipped chain join up. *)
Lemma zip_with_path (first : IdObject) (rest : list IdObject) :
  let links := zip_with (λ a d, {| ancestor := a; descendant := d |}) (first :: rest) rest in
  (ancestor <$> head links) = ((λ _, first) <$> head rest) ∧
  (descendant <$> last links) = last rest ∧
  ∀ i k k', links !! i = Some k → links !! S i = Some k' → descendant k = ancestor k'.
Proof.
  set (mk := λ a d, {| ancestor := a; descendant := d |}).
  revert first. induction rest as [|n rest IH]; intros first; [done|].
  destruct (IH n) as (Hhead & Hlast & Hpath). cbn zeta in *.
  change (zip_with mk (first :: n :: rest) (n :: rest))
    with (mk first n :: zip_with mk (n :: rest) rest).
  set (later := zip_with mk (n :: rest) rest) in *.
  split; [done|]. split.
  - rewrite !last_cons, <- Hlast. by destruct (last later).
  - intros [|i] k k'; cbn [lookup list_lookup].
    + intros [= <-] Hk'. cbn [descendant mk].
      clearbody later. destruct later as [|k0 later']; [done|]. injection Hk' as <-.
      cbn in Hhead. destruct rest; cbn in Hhead; [discriminate|].
      injection Hhead as ->. done.
    + apply Hpath.
Qed.

End CollectorFurther.

(** X1.  The Collector never throws, whatever the input: the sort and
    map callbacks only ever see elements that the filter let through.  It
    returns [undefined] exactly when every element of the input is
    absent or lacks its block or its network. *)
Theorem collector_total (artifactNetworks : list (option ArtifactNetwork)) :
  ∃ r, collectArtifactNetworks artifactNetworks = Normal r ∧
       (r = None ↔ Forall absentOrInvalid artifactNetworks).
Proof.
  eexists. split; [apply collectArtifactNetworks_observations|].
  rewrite linkNetworks_none. split.
  - intros Hnil%fmap_nil_inv. apply (proj1 (sortByHeight_nil _)) in Hnil.
    by apply observations_nil_absentOrInvalid.
  - intros Hall. by rewrite (observations_absentOrInvalid _ Hall).
Qed.

(** X2.  The collected ancestor is the network of an earliest valid
    observation and the collected descendant that of a latest one: no
    valid observation lies below the first or above the second.  Among
    observations of equal height the input order decides: the ancestor
    is the first of the lowest ones, the descendant the last of the
    highest ones. *)
Theorem collector_endpoints_earliest_latest
    (artifactNetworks : list (option ArtifactNetwork)) (r : CollectArtifactNetworksResult) :
  collectArtifactNetworks artifactNetworks = Normal (Some r) →
  ∃ earliest latest : Observation,
    collected_ancestor r = seen_network earliest ∧
    collected_descendant r = seen_network latest ∧
    (∀ o, o ∈ observations artifactNetworks →
          seen_height earliest ≤ seen_height o ≤ seen_height latest) ∧
    head (filter (λ o, seen_height o = seen_height earliest) (observations artifactNetworks))
      = Some earliest ∧
    last (filter (λ o, seen_height o = seen_height latest) (observations artifactNetworks))
      = Some latest.
Proof.
  rewrite collectArtifactNetworks_observations. intros [= Hr].
  set (obs := observations artifactNetworks) in *.
  assert (sortByHeight obs ≠ []) as Hne.
  { intros Hnil. by rewrite Hnil in Hr. }
  destruct (linkNetworks_observations _ Hne) as (r' & Hr' & Hfirst & Hlast & _).
  rewrite Hr in Hr'. injection Hr' as <-.
  pose proof (Sorted_StronglySorted notAbove _ (sortByHeight_Sorted obs)) as Hsorted.
  destruct (head (sortByHeight obs)) as [earliest|] eqn:Hhead; [|done].
  destruct (last (sortByHeight obs)) as [latest|] eqn:Hlatest; [|done].
  injection Hfirst as Hfirst. injection Hlast as Hlast.
  exists earliest, latest. split; [done|]. split; [done|].
  destruct (sortByHeight obs) as [|e rest] eqn:Hsort; [done|].
  injection Hhead as ->.
  apply last_Some in Hlatest as [front Hfront].
  split_and!.
  - intros o Ho. rewrite <- (sortByHeight_Permutation obs), Hsort in Ho. split.
    + apply StronglySorted_cons in Hsorted as [Hall _].
      apply elem_of_cons in Ho as [->|Ho]; [done|].
      by apply (proj1 (Forall_forall _ _) Hall).
    + rewrite Hfront in Hsorted, Ho.
      apply elem_of_app in Ho as [Ho|Ho%list_elem_of_singleton]; [|by subst].
      apply (StronglySorted_app_1_elem_of notAbove _ _ _ _ Hsorted Ho). by left.
  - rewrite <- (sortByHeight_stable _ obs), Hsort, filter_cons.
    by rewrite decide_True.
  - rewrite <- (sortByHeight_stable _ obs), Hsort, Hfront, filter_app, filter_cons.
    rewrite decide_True by done. rewrite filter_nil. apply last_snoc.
Qed.

Lemma collector_endpoints_earliest_latest_witness :
  ∃ earliest latest : Observation,
    seen_network earliest = {| id := "A" |} ∧ seen_network latest = {| id := "B" |} ∧
    seen_height earliest = 10 ∧ seen_height latest = 20.
Proof.
  destruct (collector_endpoints_earliest_latest
              [observe "B" 20; None; observe "A" 10; observe "C" 15]
              {| collected_ancestor := {| id := "A" |};
                 collected_descendant := {| id := "B" |};
                 networkGenealogies := [link "A" "C"; link "C" "B"] |})
    as (earliest & latest & Hancestor & Hdescendant & _ & Hfirst & Hlast);
    [reflexivity|].
  exists earliest, latest. split; [done|]. split; [done|].
  assert (earliest ∈ observations [observe "B" 20; None; observe "A" 10; observe "C" 15])
    as Hearliest.
  { apply head_Some in Hfirst as [rest Hrest].
    eapply list_elem_of_filter. rewrite Hrest. left. }
  assert (latest ∈ observations [observe "B" 20; None; observe "A" 10; observe "C" 15])
    as Hlatest.
  { apply last_Some in Hlast as [front Hfront].
    eapply list_elem_of_filter. rewrite Hfront. apply elem_of_app. right. left. }
  apply list_elem_of_In in Hearliest, Hlatest. cbn in Hearliest, Hlatest.
  destruct Hearliest as [<-|[<-|[<-|[]]]]; try discriminate Hancestor.
  destruct Hlatest as [<-|[<-|[<-|[]]]]; try discriminate Hdescendant.
  done.
Defined.

(** X3.  The links of a Collector result form one path from the
    collected ancestor to the collected descendant: the first link starts
    at the ancestor, each link starts where the one before it ends, the
    last link ends at the descendant; and the two endpoints coincide when
    there is no link. *)
Theorem collector_links_form_a_path
    (artifactNetworks : list (option ArtifactNetwork)) (r : CollectArtifactNetworksResult) :
  collectArtifactNetworks artifactNetworks = Normal (Some r) →
  let links := networkGenealogies r in
  (links = [] → collected_ancestor r = collected_descendant r) ∧
  (∀ k, head links = Some k → ancestor k = collected_ancestor r) ∧
  (∀ k, last links = Some k → descendant k = collected_descendant r) ∧
  (∀ i k k', links !! i = Some k → links !! S i = Some k' → descendant k = ancestor k').
Proof.
  rewrite collectArtifactNetworks_observations. intros [= Hr].
  destruct (seen_network <$> sortByHeight (observations artifactNetworks))
    as [|first rest]; [done|].
  rewrite linkNetworks_cons in Hr.
  pose proof (zip_with_path first rest) as Hzip. cbv zeta in Hzip.
  set (chain := zip_with _ (first :: rest) rest) in *.
  assert (chain = [] → rest = []) as Hempty.
  { subst chain. by destruct rest. }
  clearbody chain. injection Hr as <-.
  destruct Hzip as (Hhead & Hlast & Hpath).
  unfold networkGenealogies, collected_ancestor, collected_descendant. cbv zeta.
  split_and!.
  - intros ->%Hempty. done.
  - intros k Hk. rewrite Hk in Hhead.
    destruct (head rest); simpl in Hhead; [by injection Hhead|discriminate].
  - intros k Hk. rewrite Hk in Hlast. cbn in Hlast. rewrite last_cons, <- Hlast. done.
  - exact Hpath.
Qed.

Lemma collector_links_form_a_path_witness :
  let r := {| collected_ancestor := {| id := "A" |};
              collected_descendant := {| id := "B" |};
              networkGenealogies := [link "A" "C"; link "C" "B"] |} in
  descendant (link "A" "C") = ancestor (link "C" "B") ∧
  ancestor (link "A" "C") = collected_ancestor r.
Proof.
  intros r.
  destruct (collector_links_form_a_path
              [observe "B" 20; None; observe "A" 10; observe "C" 15] r)
    as (_ & Hfirst & _ & Hpath); [reflexivity|].
  split.
  - apply (Hpath 0%nat); reflexivity.
  - apply Hfirst. reflexivity.
Defined.

(** X4.  When the valid observations have pairwise distinct heights,
    the Collector's result does not depend on the order of its input:
    two inputs whose valid observations are the same up to order give
    the same ancestor, descendant and links. *)
Theorem collector_ignores_input_order
    (artifactNetworks1 artifactNetworks2 : list (option ArtifactNetwork)) :
  observations artifactNetworks1 ≡ₚ observations artifactNetworks2 →
  NoDup (seen_height <$> observations artifactNetworks1) →
  collectArtifactNetworks artifactNetworks1 = collectArtifactNetworks artifactNetworks2.
Proof.
  intros Hperm Hdistinct. rewrite !collectArtifactNetworks_observations.
  by rewrite (sortByHeight_Permutation_eq _ _ Hperm Hdistinct).
Qed.

Lemma collector_ignores_input_order_witness :
  collectArtifactNetworks [observe "A" 10; observe "B" 20; None; observe "C" 15]
  = collectArtifactNetworks [observe "C" 15; observe "B" 20; observe "A" 10].
Proof.
  apply collector_ignores_input_order.
  - change (observations [observe "A" 10; observe "B" 20; None; observe "C" 15])
      with (observations [observe "A" 10; observe "B" 20; observe "C" 15]).
    change (observations [observe "C" 15; observe "B" 20; observe "A" 10])
      with (reverse (observations [observe "A" 10; observe "B" 20; observe "C" 15])).
    symmetry. apply reverse_Permutation.
  - apply (bool_decide_unpack _). vm_compute. exact I.
Defined.

(** X5.  Entries that are absent, or lack their block or their network,
    have no influence on the Collector: inserting any number of them
    anywhere in the input leaves its result unchanged. *)
Theorem collector_ignores_invalid_entries
    (before invalid after : list (option ArtifactNetwork)) :
  Forall absentOrInvalid invalid →
  collectArtifactNetworks (before ++ invalid ++ after)
  = collectArtifactNetworks (before ++ after).
Proof.
  intros Hinvalid. rewrite !collectArtifactNetworks_observations.
  by rewrite !observations_app, (observations_absentOrInvalid _ Hinvalid).
Qed.

Lemma collector_ignores_invalid_entries_witness :
  collectArtifactNetworks
    ([observe "A" 10]
       ++ [None; Some {| block := None; db := Some {| network := {| id := "X" |} |} |}]
       ++ [observe "B" 20])
  = collectArtifactNetworks ([observe "A" 10] ++ [observe "B" 20]).
Proof.
  apply collector_ignores_invalid_entries.
  constructor; [exact I|]. constructor; [left; reflexivity|]. constructor.
Defined.

(** ** The Relation Finder: failures of the chain, soundness, coverage *)

Section FinderFurther.

Context (d : Driver).
Implicit Types (s : driver_state d).

Lemma findMatchingCandidateOnChain_failure (candidates : list Network) s i h full e :
  let check := run d (findMatchingCandidateOnChain candidates) s in
  trace check !! i = Some (LookedUp h full (Abrupt e)) →
  outcome check = Completed (Abrupt e) ∧ length (trace check) = S i.
Proof.
  revert s i. induction candidates as [|c later IH]; intros s i; [done|].
  cbn zeta. rewrite run_findMatchingCandidateOnChain_cons. cbn zeta.
  destruct (respond d _ s) as [[w|e'] s']; cbn [fst snd].
  - destruct (matchesOnChain w c); cbn [trace outcome].
    + destruct i as [|[|i]]; cbn; [discriminate|done..].
    + destruct i as [|i]; cbn [lookup list_lookup]; [discriminate|].
      intros Hi. destruct (IH s' i Hi) as [Houtcome Hlength].
      split; [done|]. cbn [length]. by rewrite Hlength.
  - destruct i as [|[|i]]; cbn; [|done..]. by intros [= _ _ ->].
Qed.

Lemma offered_app (events1 events2 : list Event) :
  offered (events1 ++ events2) = offered events1 ++ offered events2.
Proof. apply bind_app. Qed.

Lemma lookedUp_app (events1 events2 : list Event) :
  lookedUp (events1 ++ events2) = lookedUp events1 ++ lookedUp events2.
Proof. apply omap_app. Qed.

Lemma offered_lookups (events : list Event) :
  Forall (λ e, isLookup e = true) events → offered events = [].
Proof.
  unfold offered. induction 1 as [|e rest He _ IH]; [done|].
  destruct e; try discriminate. by rewrite bind_cons, IH.
Qed.

(** One batch: the heights looked up are those of an initial segment of
    the candidates, and of all of them when none matched. *)
Lemma findMatchingCandidateOnChain_coverage (candidates : list Network) s :
  let check := run d (findMatchingCandidateOnChain candidates) s in
  lookedUp (trace check) `prefix_of` recordedHeight <$> candidates ∧
  (outcome check = Completed (Normal None) →
   lookedUp (trace check) = recordedHeight <$> candidates).
Proof.
  revert s. induction candidates as [|c later IH]; intros s.
  { split; [done|done]. }
  cbn zeta. rewrite run_findMatchingCandidateOnChain_cons. cbn zeta.
  destruct (respond d _ s) as [[w|e] s']; cbn [fst snd].
  - destruct (matchesOnChain w c); cbn [trace outcome].
    + split; [|discriminate]. apply prefix_cons, prefix_nil.
    + destruct (IH s') as [Hprefix Hall]. split.
      * cbn [lookedUp omap list_omap fmap list_fmap]. by apply prefix_cons.
      * intros Hnone. cbn [lookedUp omap list_omap fmap list_fmap].
        f_equal. by apply Hall.
  - split; [|discriminate]. apply prefix_cons, prefix_nil.
Qed.

End FinderFurther.

(** X6.  A chain lookup that throws ends the search at once, with the
    very error the lookup threw: unlike a failure of the store query,
    the error is neither swallowed nor replaced, and no further request
    is made. *)
Theorem lookup_failure_ends_search (d : Driver) (s : driver_state d) (fuel : nat)
    (relation : Relation) (network : IdObject) (excluded : list string) :
  let r := run d (findRelationFrom fuel relation network excluded) s in
  ∀ i h full e,
    trace r !! i = Some (LookedUp h full (Abrupt e)) →
    outcome r = Completed (Abrupt e) ∧ length (trace r) = S i.
Proof.
  revert excluded s. induction fuel as [|fuel IH]; intros excluded s; [done|].
  cbn zeta. intros i h full e. rewrite run_findRelationFrom_S. cbn zeta.
  destruct (respond d _ s) as [[found|e'] s']; cbn [fst snd].
  2: { destruct i as [|[|i]]; cbn; [discriminate|done..]. }
  destruct i as [|i].
  { destruct (outcome (run d (findMatchingCandidateOnChain (networks found)) s'))
      as [[[?|]|?]|]; [|destruct (Nat.ltb 0 (length (networks found)))| |];
      cbn; discriminate. }
  pose proof (findMatchingCandidateOnChain_failure d (networks found) s' i h full e)
    as Hcheck. cbn zeta in Hcheck.
  pose proof (findMatchingCandidateOnChain_lookups d (networks found) s') as Hlookups.
  destruct (outcome (run d (findMatchingCandidateOnChain (networks found)) s'))
    as [[[matching|]|e'']|] eqn:Houtcome; cbn [trace outcome lookup list_lookup].
  - intros Hi. by destruct (Hcheck Hi).
  - destruct (Nat.ltb 0 (length (networks found))); cbn [trace outcome lookup list_lookup].
    + intros [Hi|[Hlen Hi]]%lookup_app_Some; [by destruct (Hcheck Hi)|].
      destruct (IH _ _ _ _ _ _ Hi) as [Hnext Hlength].
      split; [done|]. cbn [length]. rewrite length_app, Hlength. lia.
    + intros Hi. by destruct (Hcheck Hi).
  - intros Hi. destruct (Hcheck Hi) as [[= ->] Hlength].
    split; [done|]. cbn [length]. by rewrite Hlength.
  - intros Hi. by destruct (Hcheck Hi).
Qed.

Lemma lookup_failure_ends_search_witness :
  let r := run unreachableChain (findRelation 3 RelAncestor {| id := "net" |}) 0%nat in
  outcome r = Completed (Abrupt (Rejected "node unreachable")) ∧ length (trace r) = 2%nat.
Proof.
  apply (lookup_failure_ends_search unreachableChain 0%nat 3 RelAncestor {| id := "net" |} []
           1%nat 9 false (Rejected "node unreachable")).
  reflexivity.
Defined.

(** X7.  A relation that the search returns is sound: it is the
    identifier of a candidate that the store offered in this search, and
    the chain was asked for the block at that candidate's recorded height
    and answered with a block that has the candidate's recorded hash. *)
Theorem found_relation_was_offered_and_confirmed (d : Driver) (s : driver_state d)
    (fuel : nat) (relation : Relation) (network : IdObject) (excluded : list string)
    (x : IdObject) :
  let r := run d (findRelationFrom fuel relation network excluded) s in
  outcome r = Completed (Normal (Some x)) →
  ∃ c w, c ∈ offered (trace r) ∧
         LookedUp (recordedHeight c) false (Normal w) ∈ trace r ∧
         confirms w c ∧ x = toIdObject c.
Proof.
  revert excluded s. induction fuel as [|fuel IH]; intros excluded s; [done|].
  cbn zeta. rewrite run_findRelationFrom_S. cbn zeta.
  destruct (respond d _ s) as [[found|e'] s']; cbn [fst snd]; [|done].
  pose proof (findMatchingCandidateOnChain_found d (networks found) s') as Hfound.
  cbn zeta in Hfound.
  destruct (outcome (run d (findMatchingCandidateOnChain (networks found)) s'))
    as [[[matching|]|e'']|] eqn:Houtcome; cbn [trace outcome]; try done.
  - intros [= ->]. destruct (Hfound x eq_refl) as (c & w & Hc & Hw & Hconfirms & ->).
    exists c, w. split_and!; [|by right|done|done].
    unfold offered. rewrite bind_cons. apply elem_of_app. by left.
  - destruct (Nat.ltb 0 (length (networks found))); cbn [trace outcome]; [|done].
    intros (c & w & Hc & Hw & Hconfirms & ->)%IH.
    exists c, w. split_and!; [| |done|done].
    + change (Queried ?r ?i ?a ?b :: ?t ++ ?u) with ([Queried r i a b] ++ t ++ u).
      rewrite !offered_app. apply elem_of_app. right. apply elem_of_app. by right.
    + right. apply elem_of_app. by right.
Qed.

Lemma found_relation_was_offered_and_confirmed_witness :
  ∃ c w, c ∈ [candidate "n5" 5 "0x5"; candidate "n3" 3 "0x3"] ∧
         confirms w c ∧ {| id := "n3" |} = toIdObject c.
Proof.
  destruct (found_relation_was_offered_and_confirmed knownAncestorStore 0%nat 1 RelAncestor
              {| id := "A" |} [] {| id := "n3" |})
    as (c & w & Hc & _ & Hconfirms & Hx); [reflexivity|].
  exists c, w. split; [|done]. exact Hc.
Defined.

(** X8.  The search looks candidates up in the order the store offered
    them, across batches: the heights it asks the chain about are those
    of an initial segment of all the candidates offered, each asked once.
    When the search returns without a relation it has asked about every
    candidate offered: none is skipped. *)
Theorem search_covers_offered_candidates (d : Driver) (s : driver_state d) (fuel : nat)
    (relation : Relation) (network : IdObject) (excluded : list string) :
  let r := run d (findRelationFrom fuel relation network excluded) s in
  lookedUp (trace r) `prefix_of` recordedHeight <$> offered (trace r) ∧
  (outcome r = Completed (Normal None) →
   lookedUp (trace r) = recordedHeight <$> offered (trace r)).
Proof.
  revert excluded s. induction fuel as [|fuel IH]; intros excluded s; [done|].
  cbn zeta. rewrite run_findRelationFrom_S. cbn zeta.
  destruct (respond d _ s) as [[found|e'] s']; cbn [fst snd].
  2: { split; [done|discriminate]. }
  destruct (findMatchingCandidateOnChain_coverage d (networks found) s')
    as [Hprefix Hall].
  pose proof (offered_lookups _ (findMatchingCandidateOnChain_lookups d (networks found) s'))
    as Hnone.
  set (check := run d (findMatchingCandidateOnChain (networks found)) s') in *.
  set (query := Queried relation (id network) excluded (Normal found)).
  assert (∀ events, offered (query :: trace check ++ events)
                    = networks found ++ offered events) as Hoffered.
  { intros events. unfold offered at 1. rewrite bind_cons. f_equal.
    fold (offered (trace check ++ events)). by rewrite offered_app, Hnone. }
  assert (∀ events, lookedUp (query :: trace check ++ events)
                    = lookedUp (trace check) ++ lookedUp events) as HlookedUp.
  { intros events. unfold lookedUp at 1. cbn [omap list_omap query].
    fold (lookedUp (trace check ++ events)). apply lookedUp_app. }
  assert (offered (query :: trace check) = networks found) as Hoffered0.
  { rewrite <- (app_nil_r (trace check)), Hoffered. apply app_nil_r. }
  assert (lookedUp (query :: trace check) = lookedUp (trace check)) as HlookedUp0.
  { rewrite <- (app_nil_r (trace check)) at 1. rewrite HlookedUp. apply app_nil_r. }
  destruct (outcome check) as [[[matching|]|e'']|] eqn:Houtcome; cbn [trace outcome].
  2: destruct (Nat.ltb 0 (length (networks found))); cbn [trace outcome].
  2: { destruct (IH (alreadyTried found) (final check)) as [IHprefix IHall].
       rewrite Hoffered, HlookedUp, fmap_app, (Hall eq_refl). split.
       - by apply prefix_app.
       - intros Hreturn. by rewrite (IHall Hreturn). }
  2: { rewrite Hoffered0, HlookedUp0. split; [done|]. intros _. by apply Hall. }
  all: rewrite Hoffered0, HlookedUp0; split; [done|discriminate].
Qed.

Lemma search_covers_offered_candidates_witness :
  let r := run exhaustedStore (findRelation 5 RelAncestor {| id := "net" |}) 0%nat in
  lookedUp (trace r) = [9; 7; 5] ∧
  recordedHeight <$> offered (trace r) = [9; 7; 5].
Proof.
  intros r.
  pose proof (proj2 (search_covers_offered_candidates exhaustedStore 0%nat 5 RelAncestor
                       {| id := "net" |} []) eq_refl) as Hall.
  split; [reflexivity|]. unfold r, findRelation. rewrite <- Hall. reflexivity.
Defined.

(** ** The Orchestrator: failures and irrelevant artifacts *)

(** X9.  When a search throws, the orchestrator throws the same error
    and loads nothing.  If the ancestor search throws, the run is that
    search alone: the descendant search is not started.  If the
    descendant search throws, the run is the two searches.  In neither
    case is a load requested, so nothing of what the Collector or the
    first search found is persisted. *)
Theorem orchestrator_aborts_without_loading (d : Driver) (s : driver_state d) (fuel : nat)
    (networkId : string) (artifacts : list Artifact)
    (collected : CollectArtifactNetworksResult) :
  collectArtifactNetworks (selectedNetworks networkId artifacts) = Normal (Some collected) →
  let up := run d (findRelation fuel RelAncestor (collected_ancestor collected)) s in
  let down :=
    run d (findRelation fuel RelDescendant (collected_descendant collected)) (final up) in
  let r := run d (generateNetworkGenealogiesLoad fuel networkId artifacts) s in
  (∀ e, outcome up = Completed (Abrupt e) →
        r = {| trace := trace up; outcome := Completed (Abrupt e); final := final up |} ∧
        List.filter isLoad (trace r) = []) ∧
  (∀ ancestorAncestor e,
     outcome up = Completed (Normal ancestorAncestor) →
     outcome down = Completed (Abrupt e) →
     r = {| trace := trace up ++ trace down; outcome := Completed (Abrupt e);
            final := final down |} ∧
     List.filter isLoad (trace r) = []).
Proof.
  intros Hcollected up down r.
  assert (r = match outcome up with
              | Completed (Normal ancestorAncestor) =>
                  match outcome down with
                  | Completed (Abrupt e) =>
                      {| trace := trace up ++ trace down; outcome := Completed (Abrupt e);
                         final := final down |}
                  | _ => r
                  end
              | Completed (Abrupt e) =>
                  {| trace := trace up; outcome := Completed (Abrupt e); final := final up |}
              | Unfinished => r
              end) as Hrun.
  { subst r. unfold generateNetworkGenealogiesLoad.
    rewrite artifactNetworks_selected.
    cbn [evaluate mbind Process_mbind Process_bind]. rewrite Hcollected.
    cbn [evaluate destructure mbind Process_mbind Process_bind].
    rewrite run_bind. fold up.
    destruct (outcome up) as [[ancestorAncestor|e]|]; [|done..].
    cbn zeta. rewrite run_bind. fold down.
    by destruct (outcome down) as [[descendantDescendant|e]|]. }
  split.
  - intros e Hup. rewrite Hup in Hrun. rewrite Hrun. split; [done|].
    apply filter_isLoad_none, findRelationFrom_no_load.
  - intros ancestorAncestor e Hup Hdown. rewrite Hup, Hdown in Hrun. rewrite Hrun.
    split; [done|]. cbn [trace]. rewrite List.filter_app.
    by rewrite !filter_isLoad_none by apply findRelationFrom_no_load.
Qed.

Lemma orchestrator_aborts_without_loading_witness :
  run failingStore (generateNetworkGenealogiesLoad 2 "1337" sampleArtifacts) 0%nat
  = {| trace := [Queried RelAncestor "A" [] (Abrupt (Rejected "store unavailable"))];
       outcome := Completed (Abrupt networksOfUndefined); final := 1%nat |}.
Proof.
  apply (proj1 (orchestrator_aborts_without_loading failingStore 0%nat 2 "1337" sampleArtifacts
                  {| collected_ancestor := {| id := "A" |};
                     collected_descendant := {| id := "B" |};
                     networkGenealogies := [link "A" "C"; link "C" "B"] |}
                  ltac:(vm_compute; reflexivity))
           networksOfUndefined).
  vm_compute. reflexivity.
Defined.

(** X10.  Artifacts that have no [networks] object, or no entry in it for
    the connected network, have no influence on the orchestrator: with
    any number of them inserted anywhere among the artifacts it is the
    same process, request for request. *)
Theorem orchestrator_ignores_other_artifacts (fuel : nat) (networkId : string)
    (before others after : list Artifact) :
  Forall (λ artifact, definesNetwork networkId artifact = false) others →
  generateNetworkGenealogiesLoad fuel networkId (before ++ others ++ after)
  = generateNetworkGenealogiesLoad fuel networkId (before ++ after).
Proof.
  intros Hothers. unfold generateNetworkGenealogiesLoad, JsArray.filter.
  rewrite !List.filter_app.
  assert (List.filter (definesNetwork networkId) others = []) as ->; [|done].
  induction Hothers as [|artifact rest Hartifact _ IH]; [done|].
  cbn [List.filter]. by rewrite Hartifact.
Qed.

Lemma orchestrator_ignores_other_artifacts_witness :
  generateNetworkGenealogiesLoad 2 "1337"
    ([ {| artifact_networks := Some {[ "1337" := observe "A" 10 ]} |} ]
       ++ [ {| artifact_networks := None |};
            {| artifact_networks := Some {[ "1" := observe "M" 7 ]} |};
            {| artifact_networks := Some {[ "1337" := None ]} |} ]
       ++ [ {| artifact_networks := Some {[ "1337" := observe "B" 20 ]} |} ])
  = generateNetworkGenealogiesLoad 2 "1337"
      ([ {| artifact_networks := Some {[ "1337" := observe "A" 10 ]} |} ]
         ++ [ {| artifact_networks := Some {[ "1337" := observe "B" 20 ]} |} ]).
Proof.
  apply orchestrator_ignores_other_artifacts.
  repeat constructor.
Defined.

(** ** The compile command *)

Section CompileCommand.

Import Compile.

Context (format : option Json → option Replacer → string → option string).



Lemma length_zero_empty (given : string) :
  Nat.eqb (String.length given) 0 = bool_decide (given = "").
Proof. by destruct given. Qed.

(** The filter that [listVersions] settles on. *)
Lemma listVersions_some (w : World) (given : string) (all : bool) :
  listVersions format w {| options_list := Some given; options_all := all |}
  = let list := if bool_decide (given = "") then "releases" else given in
    if bool_decide (list = "docker")
    then thenCatch (getDockerTags w)
           (λ tags, _ ← log w (format (Some (JsonArray (tags ++ [seeMore]))) None " ");
                    done w None)
           (λ error, done w (Some error))
    else thenCatch (getReleases w)
           (λ releases,
              _ ← log w (format (releases !! list)
                           (if all then None else Some shortener) " ");
              done w None)
           (λ error, done w (Some error)).
Proof.
  unfold listVersions. cbn [options_list options_all property evaluate].
  unfold mbind at 1, Act_bind at 1, evaluate. cbn [fst snd app].
  rewrite length_zero_empty.
  by destruct (bool_decide (_ = "docker")), (thenCatch _ _ _).
Qed.

End CompileCommand.

(** X11.  [shortener] never alters the first ten elements of an array
    and never returns more than eleven: an array of at most ten elements,
    like any value that is not an array, comes back unchanged; a longer
    one comes back as its first ten elements followed by one line that
    states how many were left out. *)
Theorem shortener_keeps_first_ten (key : string) (elements : list Compile.Json) :
  (∀ val, (∀ array, val ≠ Compile.JsonArray array) → Compile.shortener key val = val) ∧
  ∃ shortened,
    Compile.shortener key (Compile.JsonArray elements) = Compile.JsonArray shortened ∧
    take 10 shortened = take 10 elements ∧
    (length shortened ≤ 11)%nat ∧
    ((length elements ≤ 10)%nat → shortened = elements) ∧
    ((10 < length elements)%nat →
     shortened
     = take 10 elements
       ++ [Compile.JsonString
             (".. and " +:+ pretty (length elements - 10)%nat
                +:+ " more. Use `--all` to see full list.")]).
Proof.
  split.
  { intros val Hval. destruct val; try done. by destruct (Hval elements0). }
  unfold Compile.shortener, Compile.defaultLength.
  destruct (Nat.ltb_spec 10 (length elements)) as [Hlong|Hshort].
  - eexists. split; [done|]. split_and!.
    + rewrite take_app_le by (rewrite length_take; lia).
      by rewrite take_take.
    + rewrite length_app, length_take. cbn [length]. lia.
    + lia.
    + done.
  - exists elements. split_and!; [done|done| lia |done|lia].
Qed.



(** X13.  With a filter other than [docker], a supplier whose releases
    arrive, and a logger and [done] that do not throw, the command asks
    for the releases, logs once and calls [done] without an error, and
    nothing else.  What it logs is the print of the member of the
    releases that the filter names, where an empty filter names
    [releases]; a filter that names no member prints [undefined] and is
    not reported as an error.  The print is shortened unless [--all] is
    given. *)
Theorem listVersions_prints_releases
    (format : option Compile.Json → option Compile.Replacer → string → option string)
    (w : Compile.World) (given : string) (all : bool) (known : gmap string Compile.Json) :
  given ≠ "docker" →
  Compile.releases w = Normal known →
  Compile.quiet w →
  let key := if bool_decide (given = "") then "releases" else given in
  Compile.listVersions format w
    {| Compile.options_list := Some given; Compile.options_all := all |}
  = ([Compile.AskedReleases;
      Compile.Logged (format (known !! key)
                        (if all then None else Some Compile.shortener) " ");
      Compile.DoneCalled None],
     Normal ()).
Proof.
  intros Hgiven Hknown [Hlog Hdone]. rewrite listVersions_some. cbn zeta.
  set (key := if bool_decide (given = "") then "releases" else given).
  rewrite (bool_decide_eq_false_2 (key = "docker")).
  2: { unfold key. by destruct (bool_decide (given = "")). }
  unfold Compile.thenCatch, Compile.getReleases, Compile.log, Compile.done,
    mbind, Compile.Act_bind.
  cbn [fst snd]. rewrite Hknown. cbn [fst snd]. by rewrite Hlog, Hdone.
Qed.

Lemma listVersions_prints_releases_witness :
  Compile.listVersions sampleFormat sampleWorld
    {| Compile.options_list := Some ""; Compile.options_all := false |}
  = ([Compile.AskedReleases; Compile.Logged (Some "shortened"); Compile.DoneCalled None],
     Normal ()) ∧
  Compile.listVersions sampleFormat sampleWorld
    {| Compile.options_list := Some "nightly"; Compile.options_all := true |}
  = ([Compile.AskedReleases; Compile.Logged None; Compile.DoneCalled None], Normal ()).
Proof.
  split.
  - apply (listVersions_prints_releases sampleFormat sampleWorld "" false _ ltac:(done)
             eq_refl ltac:(by split)).
  - apply (listVersions_prints_releases sampleFormat sampleWorld "nightly" true _ ltac:(done)
             eq_refl ltac:(by split)).
Defined.

(** X14.  With the filter [docker], a supplier whose tags arrive, and a
    logger and [done] that do not throw, the command asks for the docker
    tags only, logs the tags followed by one line of reference, printed
    without a replacer whether or not [--all] is given, and calls [done]
    without an error. *)
Theorem listVersions_prints_docker_tags
    (format : option Compile.Json → option Compile.Replacer → string → option string)
    (w : Compile.World) (all : bool) (tags : list Compile.Json) :
  Compile.dockerTags w = Normal tags →
  Compile.quiet w →
  Compile.listVersions format w
    {| Compile.options_list := Some "docker"; Compile.options_all := all |}
  = ([Compile.AskedDockerTags;
      Compile.Logged (format (Some (Compile.JsonArray (tags ++ [Compile.seeMore]))) None " ");
      Compile.DoneCalled None],
     Normal ()).
Proof.
  intros Htags [Hlog Hdone]. rewrite listVersions_some. cbn zeta.
  rewrite (bool_decide_eq_false_2 ("docker" = "")) by done.
  rewrite (bool_decide_eq_true_2 ("docker" = "docker")) by done.
  unfold Compile.thenCatch, Compile.getDockerTags, Compile.log, Compile.done,
    mbind, Compile.Act_bind.
  cbn [fst snd]. rewrite Htags. cbn [fst snd]. by rewrite Hlog, Hdone.
Qed.

Lemma listVersions_prints_docker_tags_witness :
  Compile.listVersions sampleFormat dockerWorld
    {| Compile.options_list := Some "docker"; Compile.options_all := false |}
  = ([Compile.AskedDockerTags; Compile.Logged (Some "full"); Compile.DoneCalled None],
     Normal ()).
Proof.
  apply (listVersions_prints_docker_tags sampleFormat dockerWorld false
           [Compile.JsonString "stable"; Compile.JsonString "0.5.0"] eq_refl).
  by split.
Defined.



(** ** The Orchestrator: the shape of every run *)

Section OrchestratorFurther.

Context (d : Driver).
Implicit Types (s : driver_state d).

(** Every run of the orchestrator on a Collector result, whichever way
    the searches end. *)
Lemma run_generateNetworkGenealogiesLoad (fuel : nat) (networkId : string)
    (artifacts : list Artifact) (collected : CollectArtifactNetworksResult) s :
  collectArtifactNetworks (selectedNetworks networkId artifacts) = Normal (Some collected) →
  let up := run d (findRelation fuel RelAncestor (collected_ancestor collected)) s in
  let down :=
    run d (findRelation fuel RelDescendant (collected_descendant collected)) (final up) in
  run d (generateNetworkGenealogiesLoad fuel networkId artifacts) s
  = match outcome up with
    | Completed (Normal ancestorAncestor) =>
        match outcome down with
        | Completed (Normal descendantDescendant) =>
            let links :=
              pushWhen descendantDescendant
                (λ found, {| ancestor := collected_descendant collected;
                             descendant := found |})
                (pushWhen ancestorAncestor
                   (λ found, {| ancestor := found;
                                descendant := collected_ancestor collected |})
                   (networkGenealogies collected)) in
            let answer := respond d (ResourcesLoad links) (final down) in
            {| trace := trace up ++ trace down ++ [Loaded links answer.1];
               outcome := Completed answer.1; final := answer.2 |}
        | Completed (Abrupt e) =>
            {| trace := trace up ++ trace down; outcome := Completed (Abrupt e);
               final := final down |}
        | Unfinished =>
            {| trace := trace up ++ trace down; outcome := Unfinished;
               final := final down |}
        end
    | Completed (Abrupt e) =>
        {| trace := trace up; outcome := Completed (Abrupt e); final := final up |}
    | Unfinished => {| trace := trace up; outcome := Unfinished; final := final up |}
    end.
Proof.
  intros Hcollected up down. unfold generateNetworkGenealogiesLoad.
  rewrite artifactNetworks_selected.
  cbn [evaluate mbind Process_mbind Process_bind]. rewrite Hcollected.
  cbn [evaluate destructure mbind Process_mbind Process_bind].
  rewrite run_bind. fold up.
  destruct (outcome up) as [[ancestorAncestor|e]|]; [|done..].
  cbn zeta. rewrite run_bind. fold down.
  destruct (outcome down) as [[descendantDescendant|e]|]; [|done..].
  rewrite run_yield. cbn [trace outcome final event]. done.
Qed.

Lemma collectArtifactNetworks_cases (artifactNetworks : list (option ArtifactNetwork)) :
  collectArtifactNetworks artifactNetworks = Normal None ∨
  ∃ collected, collectArtifactNetworks artifactNetworks = Normal (Some collected).
Proof.
  rewrite collectArtifactNetworks_observations.
  destruct (linkNetworks _) as [collected|]; eauto.
Qed.

Lemma run_generateNetworkGenealogiesLoad_none (fuel : nat) (networkId : string)
    (artifacts : list Artifact) s :
  collectArtifactNetworks (selectedNetworks networkId artifacts) = Normal None →
  run d (generateNetworkGenealogiesLoad fuel networkId artifacts) s
  = {| trace := []; outcome := Completed (Abrupt destructuringUndefined); final := s |}.
Proof.
  intros Hcollected. unfold generateNetworkGenealogiesLoad.
  rewrite artifactNetworks_selected.
  cbn [evaluate mbind Process_mbind Process_bind]. by rewrite Hcollected.
Qed.

Lemma no_load_lookup (events : list Event) i inputs answer :
  Forall (λ e, isLoad e = false) events → events !! i ≠ Some (Loaded inputs answer).
Proof.
  intros Hall Hi. eapply Forall_lookup_1 in Hall; [|exact Hi]. done.
Qed.

End OrchestratorFurther.

(** X16.  In every run of the orchestrator, whatever the artifacts and
    however the driver answers, at most one load is requested, and a load
    is the last thing the orchestrator does: it completes as the load was
    answered.  Nothing is ever persisted before both searches have
    returned. *)
Theorem orchestrator_loads_last_and_once (d : Driver) (s : driver_state d) (fuel : nat)
    (networkId : string) (artifacts : list Artifact) :
  let r := run d (generateNetworkGenealogiesLoad fuel networkId artifacts) s in
  (length (List.filter isLoad (trace r)) ≤ 1)%nat ∧
  ∀ i inputs answer,
    trace r !! i = Some (Loaded inputs answer) →
    length (trace r) = S i ∧ outcome r = Completed answer.
Proof.
  cbn zeta.
  destruct (collectArtifactNetworks_cases (selectedNetworks networkId artifacts))
    as [Hnone|[collected Hcollected]].
  { rewrite (run_generateNetworkGenealogiesLoad_none d fuel networkId artifacts s Hnone).
    cbn. split; [lia|done]. }
  rewrite (run_generateNetworkGenealogiesLoad d fuel networkId artifacts collected s
             Hcollected). cbn zeta.
  set (up := run d (findRelation fuel RelAncestor (collected_ancestor collected)) s).
  set (down := run d (findRelation fuel RelDescendant (collected_descendant collected))
                 (final up)).
  pose proof (findRelationFrom_no_load d fuel RelAncestor (collected_ancestor collected) [] s)
    as Hup.
  pose proof (findRelationFrom_no_load d fuel RelDescendant (collected_descendant collected)
                [] (final up)) as Hdown.
  fold (findRelation fuel RelAncestor (collected_ancestor collected)) in Hup.
  fold (findRelation fuel RelDescendant (collected_descendant collected)) in Hdown.
  fold up in Hup, Hdown. fold down in Hdown.
  assert (Forall (λ e, isLoad e = false) (trace up ++ trace down)) as Hboth.
  { by apply Forall_app. }
  destruct (outcome up) as [[ancestorAncestor|e]|]; cbn [trace outcome].
  2,3: split; [rewrite filter_isLoad_none by done; cbn; lia|
               intros i inputs answer Hi; by apply no_load_lookup in Hi].
  destruct (outcome down) as [[descendantDescendant|e]|]; cbn [trace outcome].
  2,3: split; [rewrite filter_isLoad_none by done; cbn; lia|
               intros i inputs answer Hi; by apply no_load_lookup in Hi].
  rewrite app_assoc. split.
  - rewrite List.filter_app, (filter_isLoad_none _ Hboth). cbn. lia.
  - intros i inputs answer [Hi|[Hlength Hi]]%lookup_app_Some;
      [by apply no_load_lookup in Hi|].
    destruct (i - length (trace up ++ trace down))%nat as [|k] eqn:Hk; [|done].
    injection Hi as <- <-. split; [|done].
    rewrite length_app. cbn [length]. lia.
Qed.

(** X17.  In a run of the orchestrator on a Collector result, the store
    is first asked only for possible ancestors of the collected ancestor
    and then only for possible descendants of the collected descendant:
    no query concerns another network, and no ancestor query follows a
    descendant query. *)
Theorem orchestrator_queries_ancestors_then_descendants (d : Driver) (s : driver_state d)
    (fuel : nat) (networkId : string) (artifacts : list Artifact)
    (collected : CollectArtifactNetworksResult) :
  collectArtifactNetworks (selectedNetworks networkId artifacts) = Normal (Some collected) →
  let r := run d (generateNetworkGenealogiesLoad fuel networkId artifacts) s in
  ∃ ups downs,
    queries (trace r) = ups ++ downs ∧
    Forall (λ q, query_relation q = RelAncestor ∧
                 query_id q = id (collected_ancestor collected)) ups ∧
    Forall (λ q, query_relation q = RelDescendant ∧
                 query_id q = id (collected_descendant collected)) downs.
Proof.
  intros Hcollected. cbn zeta.
  rewrite (run_generateNetworkGenealogiesLoad d fuel networkId artifacts collected s
             Hcollected). cbn zeta.
  set (up := run d (findRelation fuel RelAncestor (collected_ancestor collected)) s).
  set (down := run d (findRelation fuel RelDescendant (collected_descendant collected))
                 (final up)).
  destruct (findRelationFrom_threaded d fuel RelAncestor (collected_ancestor collected) [] s)
    as [_ Hup].
  destruct (findRelationFrom_threaded d fuel RelDescendant (collected_descendant collected)
              [] (final up)) as [_ Hdown].
  fold (findRelation fuel RelAncestor (collected_ancestor collected)) in Hup.
  fold (findRelation fuel RelDescendant (collected_descendant collected)) in Hdown.
  fold up in Hup, Hdown. fold down in Hdown.
  destruct (outcome up) as [[ancestorAncestor|e]|]; cbn [trace].
  2,3: exists (queries (trace up)), []; by rewrite app_nil_r.
  exists (queries (trace up)), (queries (trace down)).
  split; [|done].
  destruct (outcome down) as [[descendantDescendant|e]|]; cbn [trace];
    rewrite ?queries_app; [|done..].
  cbn. by rewrite app_nil_r.
Qed.

Lemma orchestrator_queries_ancestors_then_descendants_witness :
  let r := run knownAncestorStore
             (generateNetworkGenealogiesLoad 2 "1337" sampleArtifacts) 0%nat in
  ∃ ups downs,
    queries (trace r) = ups ++ downs ∧
    Forall (λ q, query_relation q = RelAncestor ∧ query_id q = "A") ups ∧
    Forall (λ q, query_relation q = RelDescendant ∧ query_id q = "B") downs.
Proof.
  apply (orchestrator_queries_ancestors_then_descendants knownAncestorStore 0%nat 2 "1337"
           sampleArtifacts
           {| collected_ancestor := {| id := "A" |};
              collected_descendant := {| id := "B" |};
              networkGenealogies := [link "A" "C"; link "C" "B"] |}).
  vm_compute. reflexivity.
Defined.
